(** * The focus/break session timer of [src/components/Timer.tsx]

    A shallow embedding of the React component [Timer]: its five state
    cells, the four command handlers, the one-second interval installed by
    the effect of lines 67-105 and the one-second timeout that defers the
    automatic session switch.

    Numbers are JavaScript numbers holding small integers; they are
    modelled by [Z], which is exact for every value the component produces.
    A [Date] is modelled by its epoch milliseconds. *)

From Stdlib Require Import String Ascii DecimalString.
From Stdlib Require Import ZArith List Bool Lia.
Import ListNotations.
Local Open Scope Z_scope.

(** ** Data *)

(** ['focus' | 'break'] (line 15). *)
Inductive SessionType : Type := focus | break.

Definition Date : Type := Z.

(** The argument of [onSessionComplete] (line 9). *)
Record Session : Type := {
  type : SessionType;
  duration : Z;
  timestamp : Date
}.

(** The five [useState] cells (lines 13-17). *)
Record TimerState : Type := {
  timeLeft : Z;
  isRunning : bool;
  sessionType : SessionType;
  sessionCount : Z;
  startTime : option Date
}.

Definition focusDuration : Z := 25 * 60.
Definition breakDuration : Z := 5 * 60.
Definition longBreakDuration : Z := 15 * 60.

(** The state setters returned by [useState].  [setSessionCount] is only
    ever called with an updater function (line 58), so it takes one. *)
Definition setTimeLeft (v : Z) (s : TimerState) : TimerState :=
  {| timeLeft := v; isRunning := isRunning s; sessionType := sessionType s;
     sessionCount := sessionCount s; startTime := startTime s |}.

Definition setIsRunning (v : bool) (s : TimerState) : TimerState :=
  {| timeLeft := timeLeft s; isRunning := v; sessionType := sessionType s;
     sessionCount := sessionCount s; startTime := startTime s |}.

Definition setSessionType (v : SessionType) (s : TimerState) : TimerState :=
  {| timeLeft := timeLeft s; isRunning := isRunning s; sessionType := v;
     sessionCount := sessionCount s; startTime := startTime s |}.

Definition setSessionCount (f : Z -> Z) (s : TimerState) : TimerState :=
  {| timeLeft := timeLeft s; isRunning := isRunning s;
     sessionType := sessionType s;
     sessionCount := f (sessionCount s); startTime := startTime s |}.

Definition setStartTime (v : option Date) (s : TimerState) : TimerState :=
  {| timeLeft := timeLeft s; isRunning := isRunning s;
     sessionType := sessionType s;
     sessionCount := sessionCount s; startTime := v |}.

(** The state of the first render (lines 13-17). *)
Definition initialState : TimerState :=
  {| timeLeft := 25 * 60; isRunning := false; sessionType := focus;
     sessionCount := 0; startTime := None |}.

(** ** Command handlers *)

(** [startTimer] (lines 36-41); [now] is the value of [new Date()]. *)
Definition startTimer (now : Date) (s : TimerState) : TimerState :=
  let s1 := setIsRunning true s in
  match startTime s with
  | None => setStartTime (Some now) s1
  | Some _ => s1
  end.

(** [pauseTimer] (lines 43-45). *)
Definition pauseTimer (s : TimerState) : TimerState :=
  setIsRunning false s.

(** [resetTimer] (lines 47-51). *)
Definition resetTimer (s : TimerState) : TimerState :=
  let s1 := setIsRunning false s in
  let s2 :=
    setTimeLeft
      (match sessionType s with
       | focus => focusDuration
       | break => breakDuration
       end) s1 in
  setStartTime None s2.

(** What a render binds for [switchSession]: the constants [sessionType]
    and [sessionCount] of lines 15-16 as they were in that render.  The
    function body reads these two, and nothing else, from its closure. *)
Record Render : Type := {
  r_sessionType : SessionType;
  r_sessionCount : Z
}.

Definition render (s : TimerState) : Render :=
  {| r_sessionType := sessionType s; r_sessionCount := sessionCount s |}.

(** The body of [switchSession] (lines 53-65) as bound by the render [rd]
    and run on the live state [s].  The branch and [isLongBreak] come from
    the render's constants; [setSessionCount(prev => prev + 1)] reads the
    live count.  [%] is the truncating remainder of JavaScript. *)
Definition switchSession_in (rd : Render) (s : TimerState) : TimerState :=
  let s1 :=
    match r_sessionType rd with
    | focus =>
        let isLongBreak :=
          (0 <? r_sessionCount rd) &&
          (Z.rem (r_sessionCount rd + 1) 4 =? 0) in
        setSessionCount (fun prev => prev + 1)
          (setTimeLeft (if isLongBreak then longBreakDuration
                        else breakDuration)
             (setSessionType break s))
    | break =>
        setTimeLeft focusDuration (setSessionType focus s)
    end in
  setStartTime None (setIsRunning false s1).

(** [switchSession] as the Switch button calls it (line 197): the handler
    of the current render, whose constants are the live state. *)
Definition switchSession (s : TimerState) : TimerState :=
  switchSession_in (render s) s.

(** ** The mounted component *)

(** The duration picked at lines 78-79 and again at lines 31-32. *)
Definition nominalDuration (s : TimerState) : Z :=
  match sessionType s with
  | focus => focusDuration
  | break =>
      if (0 <? sessionCount s) && (Z.rem (sessionCount s) 4 =? 0)
      then longBreakDuration
      else breakDuration
  end.

(** A mounted [Timer]: its state cells together with what it has handed to
    the browser and to its parent.
    - [onSessionComplete] tells whether the optional prop is provided;
    - [interval] tells whether a [setInterval] handle is live;
    - [timeouts] are the pending [setTimeout(() => switchSession(), 1000)]
      callbacks, oldest first, each with the render whose [switchSession]
      it closes over;
    - [completed] are the sessions [onSessionComplete] was called with,
      oldest first; [toasts] are the notifications shown. *)
Record Timer : Type := {
  onSessionComplete : bool;
  state : TimerState;
  mounted : bool;
  interval : bool;
  timeouts : list Render;
  completed : list Session;
  toasts : list SessionType
}.

(** The guard of line 70.  Every state cell is a dependency of the effect
    (line 105), so after each state change the cleanup of line 104 clears
    the old interval and the body installs a new one exactly when the guard
    holds for the new state. *)
Definition effectGuard (s : TimerState) : bool :=
  isRunning s && (0 <? timeLeft s).

(** A state change followed by the re-render it causes. *)
Definition update (s : TimerState) (r : Timer) : Timer :=
  {| onSessionComplete := onSessionComplete r;
     state := s;
     mounted := mounted r;
     interval := effectGuard s;
     timeouts := timeouts r;
     completed := completed r;
     toasts := toasts r |}.

Definition mount (handler : bool) : Timer :=
  {| onSessionComplete := handler;
     state := initialState;
     mounted := true;
     interval := effectGuard initialState;
     timeouts := [];
     completed := [];
     toasts := [] |}.

(** A button handler runs only while the component is on screen. *)
Definition command (f : TimerState -> TimerState) (r : Timer) : Timer :=
  if mounted r then update (f (state r)) r else r.

(** One firing of the interval callback (lines 71-101).  Without a live
    interval nothing fires.  [prev] is the live [timeLeft]; the other
    values are those of the render that installed the interval, which is
    the render of the current state. *)
Definition tick (r : Timer) : Timer :=
  if interval r then
    let s := state r in
    let prev := timeLeft s in
    if prev <=? 1 then
      let s' := setTimeLeft 0 (setIsRunning false s) in
      {| onSessionComplete := onSessionComplete r;
         state := s';
         mounted := mounted r;
         interval := effectGuard s';
         timeouts := timeouts r ++ [render s];
         completed :=
           completed r ++
           match startTime s with
           | Some t =>
               if onSessionComplete r
               then [ {| type := sessionType s;
                         duration := nominalDuration s - prev;
                         timestamp := t |} ]
               else []
           | None => []
           end;
         toasts := toasts r ++ [sessionType s] |}
    else update (setTimeLeft (prev - 1) s) r
  else r.

(** The oldest pending timeout of line 96 fires.  It runs the
    [switchSession] of the render that scheduled it.  React drops state
    updates addressed to an unmounted component. *)
Definition fireTimeout (r : Timer) : Timer :=
  match timeouts r with
  | [] => r
  | rd :: rest =>
      let s := if mounted r then switchSession_in rd (state r)
               else state r in
      {| onSessionComplete := onSessionComplete r;
         state := s;
         mounted := mounted r;
         interval := if mounted r then effectGuard s else interval r;
         timeouts := rest;
         completed := completed r;
         toasts := toasts r |}
  end.

(** Unmounting runs the cleanup of line 104, which is
    [clearInterval(interval)] and nothing else. *)
Definition unmount (r : Timer) : Timer :=
  {| onSessionComplete := onSessionComplete r;
     state := state r;
     mounted := false;
     interval := false;
     timeouts := timeouts r;
     completed := completed r;
     toasts := toasts r |}.

(** Everything that can happen to a timer, one at a time and in arrival
    order. *)
Inductive Op : Type :=
| Start (now : Date)
| Pause
| Reset
| Switch
| Tick
| Timeout
| Unmount.

Definition step (op : Op) (r : Timer) : Timer :=
  match op with
  | Start now => command (startTimer now) r
  | Pause => command pauseTimer r
  | Reset => command resetTimer r
  | Switch => command switchSession r
  | Tick => tick r
  | Timeout => fireTimeout r
  | Unmount => unmount r
  end.

Definition run (ops : list Op) (r : Timer) : Timer :=
  fold_left (fun acc op => step op acc) ops r.

Fixpoint ticks (n : nat) (r : Timer) : Timer :=
  match n with
  | O => r
  | S n' => ticks n' (tick r)
  end.

Inductive reachable (handler : bool) : Timer -> Prop :=
| reachable_mount : reachable handler (mount handler)
| reachable_step op r :
    reachable handler r -> reachable handler (step op r).

(** The timer right after mounting and pressing Start at time [t]: the
    initial focus state with [isRunning = true] and [startTime = t]. *)
Definition started (t : Date) : Timer := step (Start t) (mount true).

(** ** The time display (lines 24-28) *)

(** [Number.prototype.toString] on an integer: decimal digits, with a
    leading minus sign below zero. *)
Definition toString (n : Z) : string :=
  NilZero.string_of_int (Z.to_int n).

Fixpoint pad (n : nat) (c : ascii) (s : string) : string :=
  match n with
  | O => s
  | S n' => String c (pad n' c s)
  end.

(** [padStart(targetLength, padString)] for a one-character [padString]:
    a string already long enough is returned as it is. *)
Definition padStart (targetLength : nat) (padChar : ascii) (s : string)
  : string :=
  pad (targetLength - String.length s) padChar s.

(** [formatTime] (lines 24-28).  [Math.floor(seconds / 60)] is the floor
    division and [%] the truncating remainder. *)
Definition formatTime (seconds : Z) : string :=
  let minutes := seconds / 60 in
  let remainingSeconds := Z.rem seconds 60 in
  (padStart 2 "0" (toString minutes) ++ ":" ++
   padStart 2 "0" (toString remainingSeconds))%string.

(** The decimal digit characters ['0'] to ['9']. *)
Definition digit (d : Z) : ascii := ascii_of_nat (48 + Z.to_nat d).

(** ** Whole periods *)

(** Press Start at time [t], let the countdown run for as many ticks as
    there are seconds left, then let the deferred switch fire. *)
Definition runPeriod (t : Date) (r : Timer) : Timer :=
  step Timeout (ticks (Z.to_nat (timeLeft (state r))) (step (Start t) r)).

Definition runPeriods (ts : list Date) (r : Timer) : Timer :=
  fold_left (fun acc t => runPeriod t acc) ts r.

(** The long-break test of line 55 on a count. *)
Definition isLongBreak (c : Z) : bool :=
  (0 <? c) && (Z.rem (c + 1) 4 =? 0).

(** ** Keyboard shortcuts (lines 107-130) *)

(** [startTimer] and [resetTimer] as bound by a render [cap]: the first
    reads [startTime] and the second [sessionType] from the render. *)
Definition startTimer_in (cap : TimerState) (now : Date) (s : TimerState)
  : TimerState :=
  let s1 := setIsRunning true s in
  match startTime cap with
  | None => setStartTime (Some now) s1
  | Some _ => s1
  end.

Definition resetTimer_in (cap : TimerState) (s : TimerState) : TimerState :=
  let s1 := setIsRunning false s in
  let s2 :=
    setTimeLeft
      (match sessionType cap with
       | focus => focusDuration
       | break => breakDuration
       end) s1 in
  setStartTime None s2.

(** The key combinations the listener reacts to, always with Ctrl or Meta
    held: space, [r] and [b]. *)
Inductive Key : Type :=
| CtrlSpace (now : Date)
| CtrlR
| CtrlB.

(** [handleKeyPress] (lines 109-126) of the render [cap], run on the live
    state. *)
Definition handleKeyPress (key : Key) (cap : TimerState) (s : TimerState)
  : TimerState :=
  match key with
  | CtrlSpace now =>
      if isRunning cap then pauseTimer s else startTimer_in cap now s
  | CtrlR => resetTimer_in cap s
  | CtrlB => switchSession_in (render cap) s
  end.

(** A timer together with the render whose [handleKeyPress] is the
    registered [keydown] listener. *)
Record Keyed : Type := {
  timer : Timer;
  listener : TimerState
}.

(** The dependencies of the keyboard effect (line 130) are [isRunning] and
    [startTimer]; the latter is memoised on [startTime] (line 41).  The
    listener is replaced only after a render in which one of them
    changed. *)
Definition sameStartTime (a b : option Date) : bool :=
  match a, b with
  | None, None => true
  | Some x, Some y => x =? y
  | _, _ => false
  end.

Definition depsChanged (old new : TimerState) : bool :=
  negb (Bool.eqb (isRunning old) (isRunning new)) ||
  negb (sameStartTime (startTime old) (startTime new)).

Inductive Event : Type :=
| Ui (op : Op)
| Press (key : Key).

Definition kstep (e : Event) (k : Keyed) : Keyed :=
  let t' :=
    match e with
    | Ui op => step op (timer k)
    | Press key => command (handleKeyPress key (listener k)) (timer k)
    end in
  {| timer := t';
     listener :=
       if mounted t' && depsChanged (state (timer k)) (state t')
       then state t'
       else listener k |}.

Definition mountKeyed (handler : bool) : Keyed :=
  {| timer := mount handler; listener := initialState |}.

Definition presses (n : nat) (key : Key) (k : Keyed) : Keyed :=
  Nat.iter n (kstep (Press key)) k.

Inductive reachableKeyed (handler : bool) : Keyed -> Prop :=
| reachableKeyed_mount : reachableKeyed handler (mountKeyed handler)
| reachableKeyed_step e k :
    reachableKeyed handler k -> reachableKeyed handler (kstep e k).

(** Durations that can be reported: one second less than a configured
    length. *)
Definition reportable (x : Session) : Prop :=
  match type x with
  | focus => duration x = 1499
  | break => duration x = 299 \/ duration x = 899
  end.

(** * The task list of [src/components/TaskManager.tsx] *)

Module TaskManager.

(** ['debug' | 'write' | 'code' | 'learn' | 'plan'] (line 14). *)
Inductive Tag : Type := debug | write | code | learn | plan.

(** [Task] (lines 11-18); [completedAt] is optional. *)
Record Task : Type := {
  id : string;
  title : string;
  tag : Tag;
  completed : bool;
  createdAt : Date;
  completedAt : option Date
}.

(** ['all' | 'active' | 'completed'] (line 36); the last is written
    [done], [completed] being a field of [Task]. *)
Inductive Filter : Type := all | active | done.

(** The two notifications of the component (lines 71-74, 98-101). *)
Inductive Toast : Type :=
| TaskAdded (title : string)
| TaskDeleted.

(** The state cells (lines 33-36), whether the optional prop
    [onTaskComplete] is provided, the tasks it has been called with
    (oldest first) and the notifications shown. *)
Record State : Type := {
  onTaskComplete : bool;
  tasks : list Task;
  newTaskTitle : string;
  newTaskTag : Tag;
  filter : Filter;
  reported : list Task;
  toasts : list Toast
}.

Definition initial (handler : bool) : State :=
  {| onTaskComplete := handler; tasks := []; newTaskTitle := EmptyString;
     newTaskTag := code; filter := all; reported := []; toasts := [] |}.

(** [addTask] (lines 57-75); [trim] is [String.prototype.trim], [uuid] the
    value of [crypto.randomUUID()] and [now] that of [new Date()]. *)
Definition addTask (trim : string -> string) (uuid : string) (now : Date)
    (st : State) : State :=
  if String.eqb (trim (newTaskTitle st)) EmptyString then st
  else
    let newTask :=
      {| id := uuid; title := trim (newTaskTitle st);
         tag := newTaskTag st; completed := false;
         createdAt := now; completedAt := None |} in
    {| onTaskComplete := onTaskComplete st;
       tasks := newTask :: tasks st;
       newTaskTitle := EmptyString;
       newTaskTag := newTaskTag st;
       filter := filter st;
       reported := reported st;
       toasts := toasts st ++ [TaskAdded (title newTask)] |}.

(** The [updatedTask] of lines 80-84. *)
Definition toggled (now : Date) (task : Task) : Task :=
  {| id := id task; title := title task; tag := tag task;
     completed := negb (completed task);
     createdAt := createdAt task;
     completedAt := if negb (completed task) then Some now else None |}.

(** [toggleTask] (lines 77-94): the mapped list, and the calls of
    [onTaskComplete] made while mapping, in list order.  [now] is the
    value of [new Date()], one value for the whole call. *)
Definition toggleTask (i : string) (now : Date) (st : State) : State :=
  {| onTaskComplete := onTaskComplete st;
     tasks :=
       map (fun task =>
              if String.eqb (id task) i then toggled now task else task)
           (tasks st);
     newTaskTitle := newTaskTitle st;
     newTaskTag := newTaskTag st;
     filter := filter st;
     reported :=
       reported st ++
       flat_map
         (fun task =>
            if String.eqb (id task) i
            then if completed (toggled now task) && onTaskComplete st
                 then [toggled now task] else []
            else [])
         (tasks st);
     toasts := toasts st |}.

(** [deleteTask] (lines 96-102). *)
Definition deleteTask (i : string) (st : State) : State :=
  {| onTaskComplete := onTaskComplete st;
     tasks := List.filter (fun task => negb (String.eqb (id task) i))
                (tasks st);
     newTaskTitle := newTaskTitle st;
     newTaskTag := newTaskTag st;
     filter := filter st;
     reported := reported st;
     toasts := toasts st ++ [TaskDeleted] |}.

(** [filteredTasks] (lines 104-113). *)
Definition filteredTasks (st : State) : list Task :=
  List.filter
    (fun task =>
       match filter st with
       | active => negb (completed task)
       | done => completed task
       | all => true
       end)
    (tasks st).

(** [stats] (lines 115-119); its field [completed] is written
    [completedCount] and [active] is written [activeCount]. *)
Record Stats : Type := {
  total : nat;
  completedCount : nat;
  activeCount : nat
}.

Definition stats (st : State) : Stats :=
  {| total := List.length (tasks st);
     completedCount :=
       List.length (List.filter (fun t => completed t) (tasks st));
     activeCount :=
       List.length (List.filter (fun t => negb (completed t)) (tasks st)) |}.

(** What the user can do (lines 137-225 wire these to the inputs). *)
Inductive Cmd : Type :=
| SetTitle (text : string)
| SetTag (t : Tag)
| SetFilter (f : Filter)
| Add (uuid : string) (now : Date)
| Toggle (i : string) (now : Date)
| Delete (i : string).

Definition step (trim : string -> string) (c : Cmd) (st : State) : State :=
  match c with
  | SetTitle text =>
      {| onTaskComplete := onTaskComplete st; tasks := tasks st;
         newTaskTitle := text; newTaskTag := newTaskTag st;
         filter := filter st; reported := reported st;
         toasts := toasts st |}
  | SetTag t =>
      {| onTaskComplete := onTaskComplete st; tasks := tasks st;
         newTaskTitle := newTaskTitle st; newTaskTag := t;
         filter := filter st; reported := reported st;
         toasts := toasts st |}
  | SetFilter f =>
      {| onTaskComplete := onTaskComplete st; tasks := tasks st;
         newTaskTitle := newTaskTitle st; newTaskTag := newTaskTag st;
         filter := f; reported := reported st; toasts := toasts st |}
  | Add uuid now => addTask trim uuid now st
  | Toggle i now => toggleTask i now st
  | Delete i => deleteTask i st
  end.

(** A task is completed exactly when it carries a completion date. *)
Definition consistent (task : Task) : Prop :=
  completed task = true <-> completedAt task <> None.

(** The component's own identity for a task. *)
Definition ids (st : State) : list string := map id (tasks st).

(** [Subsequence a b]: [a] is [b] with some entries left out, the others
    in the order they have in [b]. *)
Inductive Subsequence : list Task -> list Task -> Prop :=
| Subsequence_nil : Subsequence [] []
| Subsequence_keep t a b : Subsequence a b -> Subsequence (t :: a) (t :: b)
| Subsequence_drop t a b : Subsequence a b -> Subsequence a (t :: b).

End TaskManager.

(** * The session log of the dashboard and [src/components/Analytics.tsx] *)

Module Dashboard.

(** [handleSessionComplete] of the dashboard component (lines 49-58 of its
    file), the function every [Timer] receives as [onSessionComplete]: the
    session is appended to [sessions], and a focus session is announced.
    The announcement is recorded by the duration it is computed from. *)
Record State : Type := {
  sessions : list Session;
  announced : list Z
}.

Definition handleSessionComplete (session : Session) (st : State) : State :=
  {| sessions := sessions st ++ [session];
     announced :=
       match type session with
       | focus => announced st ++ [duration session]
       | break => announced st
       end |}.

(** The dashboard after the calls a timer has made, oldest first. *)
Definition afterCalls (calls : list Session) (st : State) : State :=
  fold_left (fun acc session => handleSessionComplete session acc) calls st.

End Dashboard.

Module Analytics.

Definition isFocus (s : Session) : bool :=
  match type s with
  | focus => true
  | break => false
  end.

(** [totalFocusTime] (lines 54-56). *)
Definition totalFocusTime (allSessions : list Session) : Z :=
  fold_left (fun acc session => acc + duration session)
    (List.filter isFocus allSessions) 0.

(** [tasksCompleted] (line 64), on the tasks the task list has saved. *)
Definition tasksCompleted (allTasks : list TaskManager.Task) : nat :=
  List.length (List.filter (fun task => TaskManager.completed task) allTasks).

Definition tag_eqb (a b : TaskManager.Tag) : bool :=
  match a, b with
  | TaskManager.debug, TaskManager.debug
  | TaskManager.write, TaskManager.write
  | TaskManager.code, TaskManager.code
  | TaskManager.learn, TaskManager.learn
  | TaskManager.plan, TaskManager.plan => true
  | _, _ => false
  end.

(** The object built by the [reduce] of lines 124-129: its keys in the
    order they were first assigned, which is the order [Object.entries]
    lists them in. *)
Definition TagCounts : Type := list (TaskManager.Tag * Z).

(** [acc[tag]]. *)
Fixpoint lookup (tag : TaskManager.Tag) (acc : TagCounts) : option Z :=
  match acc with
  | [] => None
  | (k, v) :: rest => if tag_eqb k tag then Some v else lookup tag rest
  end.

(** [acc[tag] = v]: an existing key keeps its place, a new one goes last. *)
Fixpoint assign (tag : TaskManager.Tag) (v : Z) (acc : TagCounts)
  : TagCounts :=
  match acc with
  | [] => [(tag, v)]
  | (k, w) :: rest =>
      if tag_eqb k tag then (k, v) :: rest else (k, w) :: assign tag v rest
  end.

(** [(acc[task.tag] || 0) + 1] (line 127); 0 is the only count that is
    falsy. *)
Definition bump (acc : TagCounts) (task : TaskManager.Task) : TagCounts :=
  let old :=
    match lookup (TaskManager.tag task) acc with
    | Some v => if v =? 0 then 0 else v
    | None => 0
    end in
  assign (TaskManager.tag task) (old + 1) acc.

Definition tagCounts (allTasks : list TaskManager.Task) : TagCounts :=
  fold_left bump
    (List.filter (fun task => TaskManager.completed task) allTasks) [].

(** The tag strings of line 17 and the table [tagColors] (lines 27-33). *)
Definition tagString (tag : TaskManager.Tag) : string :=
  match tag with
  | TaskManager.debug => "debug"
  | TaskManager.write => "write"
  | TaskManager.code => "code"
  | TaskManager.learn => "learn"
  | TaskManager.plan => "plan"
  end.

Definition tagColors (tag : TaskManager.Tag) : string :=
  match tag with
  | TaskManager.debug => "#ef4444"
  | TaskManager.write => "#6b7280"
  | TaskManager.code => "#8b5cf6"
  | TaskManager.learn => "#f59e0b"
  | TaskManager.plan => "#10b981"
  end.

(** [toUpperCase] on one ASCII character. *)
Definition toUpperCase (c : ascii) : ascii :=
  let n := nat_of_ascii c in
  if (97 <=? n)%nat && (n <=? 122)%nat then ascii_of_nat (n - 32) else c.

(** [tag.charAt(0).toUpperCase() + tag.slice(1)] (line 132). *)
Definition capitalize (s : string) : string :=
  match s with
  | EmptyString => EmptyString
  | String c rest => String (toUpperCase c) rest
  end.

Record TagDatum : Type := {
  name : string;
  value : Z;
  color : string
}.

(** [getTaskTagData] (lines 120-136). *)
Definition getTaskTagData (allTasks : list TaskManager.Task)
  : list TagDatum :=
  map (fun entry : TaskManager.Tag * Z =>
         {| name := capitalize (tagString (fst entry));
            value := snd entry;
            color := tagColors (fst entry) |})
      (tagCounts allTasks).

(** How many completed tasks carry a tag. *)
Definition completedWith (tag : TaskManager.Tag)
    (allTasks : list TaskManager.Task) : Z :=
  Z.of_nat
    (List.length
       (List.filter
          (fun task =>
             TaskManager.completed task && tag_eqb (TaskManager.tag task) tag)
          allTasks)).

Definition sumZ (l : list Z) : Z := fold_right Z.add 0 l.

End Analytics.

(** * The simulated player of [src/components/MusicControls.tsx] *)

Module MusicControls.

Inductive Icon : Type := Waves | Music | Brain | Coffee.

Record Playlist : Type := {
  name : string;
  icon : Icon;
  description : string;
  color : string
}.

(** The table [playlists] (lines 14-61), each object with its keys in
    source order. *)
Definition playlists (ty : SessionType) : list (string * Playlist) :=
  match ty with
  | focus =>
      [ ("lo-fi",
         {| name := "Lo-Fi Beats"; icon := Waves;
            description := "Chill beats for deep focus";
            color := "bg-gradient-primary" |});
        ("classical",
         {| name := "Classical Focus"; icon := Music;
            description := "Classical music for concentration";
            color := "bg-gradient-accent" |});
        ("ambient",
         {| name := "Ambient Sounds"; icon := Brain;
            description := "Nature and ambient sounds";
            color := "bg-gradient-to-r from-green-500 to-emerald-500" |});
        ("binaural",
         {| name := "Binaural Beats"; icon := Brain;
            description := "Brainwave entrainment";
            color := "bg-gradient-to-r from-purple-500 to-pink-500" |}) ]
  | break =>
      [ ("upbeat",
         {| name := "Energizing"; icon := Coffee;
            description := "Upbeat music for breaks";
            color := "bg-gradient-to-r from-orange-500 to-red-500" |});
        ("chill",
         {| name := "Chill Vibes"; icon := Waves;
            description := "Relaxing break music";
            color := "bg-gradient-to-r from-blue-500 to-cyan-500" |});
        ("nature",
         {| name := "Nature Sounds"; icon := Brain;
            description := "Natural ambience";
            color := "bg-gradient-to-r from-green-400 to-emerald-400" |}) ]
  end%string.

(** [Object.keys(table)]. *)
Definition keys (table : list (string * Playlist)) : list string :=
  map fst table.

(** [keys.includes(key)]. *)
Definition includes (ks : list string) (key : string) : bool :=
  existsb (String.eqb key) ks.

(** [table[key]] for a key that names no property inherited from
    [Object.prototype]: the own property, if there is one. *)
Fixpoint property (key : string) (table : list (string * Playlist))
  : option Playlist :=
  match table with
  | [] => None
  | (k, v) :: rest => if String.eqb k key then Some v else property key rest
  end.

(** The props (lines 9-12) and the state cells (lines 64-69); the
    one-element arrays are modelled by their element. *)
Record State : Type := {
  sessionType : SessionType;
  isPlaying : bool;
  currentPlaylist : string;
  volume : Z;
  currentTrack : string;
  duration : Z;
  currentTime : Z
}.

(** The first render (lines 64-69). *)
Definition initial (ty : SessionType) : State :=
  {| sessionType := ty;
     isPlaying := false;
     currentPlaylist := match ty with
                        | focus => "lo-fi"
                        | break => "upbeat"
                        end;
     volume := 70;
     currentTrack := "Focus Session 01";
     duration := 0;
     currentTime := 0 |}%string.

Definition setCurrentPlaylist (key : string) (st : State) : State :=
  {| sessionType := sessionType st; isPlaying := isPlaying st;
     currentPlaylist := key; volume := volume st;
     currentTrack := currentTrack st; duration := duration st;
     currentTime := currentTime st |}.

(** The effect of lines 74-80, run after a render. *)
Definition autoSwitch (st : State) : State :=
  match sessionType st with
  | focus =>
      if negb (includes (keys (playlists focus)) (currentPlaylist st))
      then setCurrentPlaylist "lo-fi" st else st
  | break =>
      if negb (includes (keys (playlists break)) (currentPlaylist st))
      then setCurrentPlaylist "upbeat" st else st
  end%string.

(** [getSelectedPlaylist] (lines 130-136). *)
Definition getSelectedPlaylist (st : State) : option Playlist :=
  match sessionType st with
  | focus =>
      match property (currentPlaylist st) (playlists focus) with
      | Some p => Some p
      | None => property "lo-fi" (playlists focus)
      end
  | break =>
      match property (currentPlaylist st) (playlists break) with
      | Some p => Some p
      | None => property "upbeat" (playlists break)
      end
  end%string.

(** The track name of lines 98 and 119; [n] is the value of
    [Math.floor(Math.random() * 20)]. *)
Definition trackName (ty : SessionType) (n : Z) : string :=
  ((match ty with focus => "Focus" | break => "Break" end)
   ++ " Session " ++ toString (n + 1))%string.

(** A new track (lines 98-100, 119-121); [d] is the value of
    [Math.floor(Math.random() * 300)]. *)
Definition newTrack (n d : Z) (st : State) : State :=
  {| sessionType := sessionType st; isPlaying := isPlaying st;
     currentPlaylist := currentPlaylist st; volume := volume st;
     currentTrack := trackName (sessionType st) n;
     duration := d + 180;
     currentTime := 0 |}.

(** One firing of the progress interval (lines 94-104), which exists
    while [isPlaying] holds. *)
Definition progress (n d : Z) (st : State) : State :=
  if isPlaying st then
    if duration st <=? currentTime st then newTrack n d st
    else
      {| sessionType := sessionType st; isPlaying := isPlaying st;
         currentPlaylist := currentPlaylist st; volume := volume st;
         currentTrack := currentTrack st; duration := duration st;
         currentTime := currentTime st + 1 |}
  else st.

(** [togglePlayback] (lines 109-116). *)
Definition togglePlayback (d : Z) (st : State) : State :=
  let fresh := negb (isPlaying st) && (duration st =? 0) in
  {| sessionType := sessionType st;
     isPlaying := negb (isPlaying st);
     currentPlaylist := currentPlaylist st; volume := volume st;
     currentTrack := currentTrack st;
     duration := if fresh then d + 180 else duration st;
     currentTime := if fresh then 0 else currentTime st |}.

(** [skipTrack] (lines 118-122); the direction is not looked at. *)
Definition skipTrack (n d : Z) (st : State) : State := newTrack n d st.

(** What can happen to the player: the parent renders it with a session
    type, the user picks one of the offered playlists (lines 155-172), moves the
    volume slider (lines 228-234), toggles playback or skips, and the
    progress interval fires.  Every render is followed by the effect of
    lines 74-80. *)
Inductive Event : Type :=
| Rerender (ty : SessionType)
| Select (key : string)
| Volume (v : Z)
| TogglePlayback (d : Z)
| Skip (n d : Z)
| Progress (n d : Z).

Definition step (e : Event) (st : State) : State :=
  autoSwitch
    match e with
    | Rerender ty =>
        {| sessionType := ty; isPlaying := isPlaying st;
           currentPlaylist := currentPlaylist st; volume := volume st;
           currentTrack := currentTrack st; duration := duration st;
           currentTime := currentTime st |}
    | Select key => setCurrentPlaylist key st
    | Volume v =>
        {| sessionType := sessionType st; isPlaying := isPlaying st;
           currentPlaylist := currentPlaylist st; volume := v;
           currentTrack := currentTrack st; duration := duration st;
           currentTime := currentTime st |}
    | TogglePlayback d => togglePlayback d st
    | Skip n d => skipTrack n d st
    | Progress n d => progress n d st
    end.

(** Events the environment can deliver: [Math.random()] is at least 0 and
    below 1, and the select offers the keys of the current table only. *)
Definition possible (e : Event) (st : State) : Prop :=
  match e with
  | Rerender _ => True
  | Select key => In key (keys (playlists (sessionType st)))
  | Volume v => 0 <= v <= 100
  | TogglePlayback d => 0 <= d < 300
  | Skip n d => 0 <= n < 20 /\ 0 <= d < 300
  | Progress n d => 0 <= n < 20 /\ 0 <= d < 300
  end.

Inductive reachable (ty : SessionType) : State -> Prop :=
| reachable_initial : reachable ty (initial ty)
| reachable_step e st :
    reachable ty st -> possible e st -> reachable ty (step e st).

(** The state change of an event by itself: the state of the render the
    event causes, which React commits before the effect of lines 74-80
    runs.  [step] is this render followed by the effect and the render
    the effect causes. *)
Definition handle (e : Event) (st : State) : State :=
  match e with
  | Rerender ty =>
      {| sessionType := ty; isPlaying := isPlaying st;
         currentPlaylist := currentPlaylist st; volume := volume st;
         currentTrack := currentTrack st; duration := duration st;
         currentTime := currentTime st |}
  | Select key => setCurrentPlaylist key st
  | Volume v =>
      {| sessionType := sessionType st; isPlaying := isPlaying st;
         currentPlaylist := currentPlaylist st; volume := v;
         currentTrack := currentTrack st; duration := duration st;
         currentTime := currentTime st |}
  | TogglePlayback d => togglePlayback d st
  | Skip n d => skipTrack n d st
  | Progress n d => progress n d st
  end.

(** Every render React commits: those in which the effect has nothing
    left to do, and the render right after an event, in which
    [getSelectedPlaylist] is called before the effect has run. *)
Inductive rendered (ty : SessionType) : State -> Prop :=
| rendered_settled st : reachable ty st -> rendered ty st
| rendered_pending e st :
    reachable ty st -> possible e st -> rendered ty (handle e st).

(** The default key of a session type (lines 65, 76, 78). *)
Definition defaultKey (ty : SessionType) : string :=
  match ty with
  | focus => "lo-fi"
  | break => "upbeat"
  end.

End MusicControls.

(** ** Basic facts about the interval *)

Lemma tick_decrement (r : Timer) :
  interval r = true ->
  1 < timeLeft (state r) ->
  tick r = update (setTimeLeft (timeLeft (state r) - 1) (state r)) r.
Proof.
  intros Hi Hlt. unfold tick. rewrite Hi.
  destruct (Z.leb_spec (timeLeft (state r)) 1) as [Hle | _]; [lia | reflexivity].
Qed.

Lemma tick_idle (r : Timer) : interval r = false -> tick r = r.
Proof. intros Hi. unfold tick. now rewrite Hi. Qed.

Lemma ticks_idle (n : nat) (r : Timer) :
  interval r = false -> ticks n r = r.
Proof.
  induction n as [| n IH]; intros Hi; simpl; [reflexivity |].
  rewrite (tick_idle r Hi). now apply IH.
Qed.

(** While more than [n] seconds are left, [n] ticks only count down. *)
Lemma ticks_countdown (n : nat) :
  forall r : Timer,
    interval r = true ->
    isRunning (state r) = true ->
    Z.of_nat n < timeLeft (state r) ->
    ticks n r =
    update (setTimeLeft (timeLeft (state r) - Z.of_nat n) (state r)) r.
Proof.
  induction n as [| n IH]; intros r Hi Hrun Hlt.
  - destruct r as [h s m i tos cs ts]; destruct s as [tl run ty c st].
    simpl in *. subst i run. unfold update, setTimeLeft, effectGuard; simpl.
    rewrite Z.sub_0_r.
    assert (E : (0 <? tl) = true) by (apply Z.ltb_lt; lia).
    now rewrite E.
  - rewrite Nat2Z.inj_succ in *.
    change (ticks (S n) r) with (ticks n (tick r)).
    rewrite tick_decrement by (try assumption; lia).
    rewrite IH.
    + unfold update, effectGuard, setTimeLeft; cbn [state timeLeft isRunning
        sessionType sessionCount startTime onSessionComplete mounted
        timeouts completed toasts].
      replace (timeLeft (state r) - 1 - Z.of_nat n)
        with (timeLeft (state r) - Z.succ (Z.of_nat n)) by lia.
      reflexivity.
    + unfold update, effectGuard, setTimeLeft; cbn [state timeLeft isRunning
        interval].
      rewrite Hrun. apply Z.ltb_lt. lia.
    + exact Hrun.
    + cbn [update state setTimeLeft timeLeft]. lia.
Qed.

Lemma ticks_add (n m : nat) (r : Timer) :
  ticks (n + m) r = ticks m (ticks n r).
Proof.
  revert r. induction n as [| n IH]; intros r; simpl; [reflexivity |].
  apply IH.
Qed.

(** ** Natural completion of a focus period *)

Lemma started_eq (t : Date) :
  started t =
  {| onSessionComplete := true;
     state := {| timeLeft := 1500; isRunning := true; sessionType := focus;
                 sessionCount := 0; startTime := Some t |};
     mounted := true; interval := true;
     timeouts := []; completed := []; toasts := [] |}.
Proof. reflexivity. Qed.

Lemma started_ticks (t : Date) (k : nat) :
  (k < 1500)%nat ->
  ticks k (started t) =
  {| onSessionComplete := true;
     state := {| timeLeft := 1500 - Z.of_nat k; isRunning := true;
                 sessionType := focus; sessionCount := 0;
                 startTime := Some t |};
     mounted := true; interval := true;
     timeouts := []; completed := []; toasts := [] |}.
Proof.
  intros Hk. rewrite ticks_countdown.
  - rewrite started_eq. unfold update, setTimeLeft, effectGuard.
    cbn [state timeLeft isRunning sessionType sessionCount startTime
         onSessionComplete mounted timeouts completed toasts andb].
    assert (E : (0 <? 1500 - Z.of_nat k) = true) by (apply Z.ltb_lt; lia).
    now rewrite E.
  - reflexivity.
  - reflexivity.
  - rewrite started_eq. cbn [state timeLeft]. lia.
Qed.

Lemma started_ticks_1500 (t : Date) :
  ticks 1500 (started t) =
  {| onSessionComplete := true;
     state := {| timeLeft := 0; isRunning := false; sessionType := focus;
                 sessionCount := 0; startTime := Some t |};
     mounted := true; interval := false;
     timeouts := [ {| r_sessionType := focus; r_sessionCount := 0 |} ];
     completed := [ {| type := focus; duration := 1499; timestamp := t |} ];
     toasts := [focus] |}.
Proof.
  change 1500%nat with (1499 + 1)%nat.
  rewrite ticks_add, (started_ticks t 1499) by lia.
  reflexivity.
Qed.

(** C1 (as the code behaves): from the initial focus state with
    [isRunning = true] and [startTime = t], 1500 ticks drive [timeLeft] to
    0 and call [onSessionComplete] exactly once, at the 1500th tick and at
    no earlier one, with [type = focus] and [timestamp = t]; the reported
    [duration] is [focusDuration - prev] with [prev = 1], that is 1499 and
    not the nominal 1500. *)
Theorem focus_completion_reports_1499 (t : Date) :
  timeLeft (state (ticks 1500 (started t))) = 0 /\
  completed (ticks 1500 (started t)) =
    [ {| type := focus; duration := 1499; timestamp := t |} ] /\
  (forall k : nat, (k < 1500)%nat ->
     completed (ticks k (started t)) = [] /\
     timeLeft (state (ticks k (started t))) = 1500 - Z.of_nat k).
Proof.
  rewrite started_ticks_1500.
  split; [reflexivity | split; [reflexivity |]].
  intros k Hk. rewrite (started_ticks t k Hk). split; reflexivity.
Qed.

Lemma focus_completion_reports_1499_witness :
  completed (ticks 1499 (started 0)) = [] /\
  timeLeft (state (ticks 1499 (started 0))) = 1500 - Z.of_nat 1499.
Proof.
  apply (proj2 (proj2 (focus_completion_reports_1499 0)) 1499%nat). lia.
Defined.

(** The sequence test of the specification: start, 10 ticks, pause, start
    again, 1490 ticks.  Nothing is reported before the 1500th cumulative
    tick, and that tick reports the same session as above. *)
Lemma paused_focus_completion (t t' : Date) :
  let paused := run [Pause; Start t'] (ticks 10 (started t)) in
  (forall k : nat, (k < 1490)%nat -> completed (ticks k paused) = []) /\
  completed (ticks 1490 paused) =
    [ {| type := focus; duration := 1499; timestamp := t |} ] /\
  timeLeft (state (ticks 1490 paused)) = 0.
Proof.
  intros paused.
  assert (P : paused = ticks 10 (started t)).
  { unfold paused. rewrite (started_ticks t 10) by lia. reflexivity. }
  rewrite P. split; [| split].
  - intros k Hk. rewrite <- ticks_add, started_ticks by lia. reflexivity.
  - rewrite <- ticks_add. change (10 + 1490)%nat with 1500%nat.
    now rewrite started_ticks_1500.
  - rewrite <- ticks_add. change (10 + 1490)%nat with 1500%nat.
    now rewrite started_ticks_1500.
Qed.

(** ** Session switching *)

(** The long-break test of line 55 says what the specification writes as
    [sessionCount > 0 AND (sessionCount+1) mod 4 == 0]: on a count that is
    not negative the remainder of JavaScript is the mathematical one. *)
Lemma isLongBreak_spec (c : Z) :
  0 <= c ->
  ((0 <? c) && (Z.rem (c + 1) 4 =? 0) = true
   <-> 0 < c /\ (c + 1) mod 4 = 0).
Proof.
  intros Hc. rewrite andb_true_iff, Z.ltb_lt, Z.eqb_eq.
  rewrite Z.rem_mod_nonneg by lia. reflexivity.
Qed.

(** The Switch button on a focus state. *)
Lemma switchSession_focus (s : TimerState) :
  sessionType s = focus ->
  switchSession s =
  {| timeLeft := if (0 <? sessionCount s) &&
                    (Z.rem (sessionCount s + 1) 4 =? 0)
                 then longBreakDuration else breakDuration;
     isRunning := false;
     sessionType := break;
     sessionCount := sessionCount s + 1;
     startTime := None |}.
Proof.
  intros Hty. unfold switchSession, switchSession_in, render.
  cbn [r_sessionType r_sessionCount]. rewrite Hty. reflexivity.
Qed.

(** The Switch button on a break state. *)
Lemma switchSession_break (s : TimerState) :
  sessionType s = break ->
  switchSession s =
  {| timeLeft := focusDuration;
     isRunning := false;
     sessionType := focus;
     sessionCount := sessionCount s;
     startTime := None |}.
Proof.
  intros Hty. unfold switchSession, switchSession_in, render.
  cbn [r_sessionType r_sessionCount]. rewrite Hty. reflexivity.
Qed.

(** A timeout that fires in the state its tick left behind does what the
    Switch button would do there. *)
Lemma fireTimeout_after_tick (r : Timer) :
  mounted r = true ->
  interval r = true ->
  timeLeft (state r) <= 1 ->
  timeouts r = [] ->
  state (fireTimeout (tick r)) = switchSession (state (tick r)) /\
  timeouts (fireTimeout (tick r)) = [].
Proof.
  intros Hm Hi Hle Hto. unfold tick. rewrite Hi.
  destruct (Z.leb_spec (timeLeft (state r)) 1) as [_ | Hgt]; [| lia].
  unfold fireTimeout. cbn [timeouts mounted state]. rewrite Hto, Hm.
  cbn [app]. split; reflexivity.
Qed.

(** C2 (as the code behaves): the deferred automatic switch runs the
    [switchSession] of the render that scheduled it.  After a manual switch
    inside the one-second window it still takes the focus branch on a
    break state, which stays a break and is counted again; after two manual
    switches it moves a focus state whose count is 3 to a short break of
    300 seconds, where the cadence rule on the count before the transition
    asks for the long break of 900. *)
Theorem stale_timeout_switch :
  (let r := step Switch (ticks 1500 (started 0)) in
   state r =
     {| timeLeft := 300; isRunning := false; sessionType := break;
        sessionCount := 1; startTime := None |} /\
   state (step Timeout r) =
     {| timeLeft := 300; isRunning := false; sessionType := break;
        sessionCount := 2; startTime := None |}) /\
  (let r := run [Switch; Switch]
              (ticks 1500
                 (run [Switch; Switch; Switch; Switch; Start 0]
                    (mount true))) in
   state r =
     {| timeLeft := 1500; isRunning := false; sessionType := focus;
        sessionCount := 3; startTime := None |} /\
   timeouts r = [ {| r_sessionType := focus; r_sessionCount := 2 |} ] /\
   state (step Timeout r) =
     {| timeLeft := 300; isRunning := false; sessionType := break;
        sessionCount := 4; startTime := None |}).
Proof. vm_compute. repeat split. Qed.

(** ** The bound on the remaining time *)

Lemma switchSession_in_bound (rd : Render) (s : TimerState) :
  0 <= timeLeft (switchSession_in rd s) <= 1500.
Proof.
  unfold switchSession_in.
  destruct (r_sessionType rd); cbn -[Z.rem];
    [destruct ((0 <? r_sessionCount rd) &&
               (Z.rem (r_sessionCount rd + 1) 4 =? 0)) |];
    vm_compute; split; discriminate.
Qed.

Lemma step_bound (op : Op) (r : Timer) :
  0 <= timeLeft (state r) <= 1500 ->
  0 <= timeLeft (state (step op r)) <= 1500.
Proof.
  intros Hb. destruct op; unfold step, command.
  - destruct (mounted r); [| exact Hb].
    unfold startTimer. destruct (startTime (state r)); exact Hb.
  - destruct (mounted r); exact Hb.
  - destruct (mounted r); [| exact Hb].
    cbn. destruct (sessionType (state r)); vm_compute; split; discriminate.
  - destruct (mounted r); [| exact Hb].
    apply switchSession_in_bound.
  - unfold tick. destruct (interval r); [| exact Hb].
    destruct (Z.leb_spec (timeLeft (state r)) 1); cbn; lia.
  - unfold fireTimeout. destruct (timeouts r) as [| rd rest]; [exact Hb |].
    cbn [state]. destruct (mounted r); [| exact Hb].
    apply switchSession_in_bound.
  - exact Hb.
Qed.

(** C3: in every state reachable from the initial one by start, pause,
    reset, switchSession and tick (and by the deferred switch and by
    unmounting), [0 <= timeLeft <= max focusDuration longBreakDuration],
    and that maximum is 1500. *)
Theorem timeLeft_bounded (handler : bool) (r : Timer) :
  reachable handler r ->
  0 <= timeLeft (state r) <= Z.max focusDuration longBreakDuration /\
  Z.max focusDuration longBreakDuration = 1500.
Proof.
  intros Hr. split; [| reflexivity].
  change (Z.max focusDuration longBreakDuration) with 1500.
  induction Hr as [| op r _ IH].
  - vm_compute. split; discriminate.
  - now apply step_bound.
Qed.

Lemma timeLeft_bounded_witness :
  0 <= timeLeft (state (step Tick (started 5)))
    <= Z.max focusDuration longBreakDuration /\
  Z.max focusDuration longBreakDuration = 1500.
Proof.
  apply (timeLeft_bounded true).
  apply reachable_step. apply (reachable_step true (Start 5)).
  apply reachable_mount.
Defined.

(** ** Completion events *)

(** C4: a manual [switchSession()] never calls [onSessionComplete],
    whatever the state; the only operation that ever does is a tick, it
    reports one session, and it does so when it brings [timeLeft] to 0. *)
Theorem completion_only_by_tick :
  (forall r : Timer, completed (step Switch r) = completed r) /\
  (forall (op : Op) (r : Timer),
     completed (step op r) = completed r \/
     (op = Tick /\ timeLeft (state (step op r)) = 0 /\
      exists sess, completed (step op r) = completed r ++ [sess])).
Proof.
  split.
  - intros r. unfold step, command. now destruct (mounted r).
  - intros op r.
    destruct op as [t0 | | | | | |]; unfold step, command;
      [ left; now destruct (mounted r)
      | left; now destruct (mounted r)
      | left; now destruct (mounted r)
      | left; now destruct (mounted r)
      | | | ].
    + unfold tick. destruct (interval r); [| now left].
      destruct (Z.leb_spec (timeLeft (state r)) 1); [| now left].
      cbn [completed state setTimeLeft timeLeft].
      destruct (startTime (state r)) as [t |];
        [destruct (onSessionComplete r) |];
        try (left; now rewrite app_nil_r).
      right. split; [reflexivity | split; [reflexivity |]].
      eexists. reflexivity.
    + left. unfold fireTimeout. now destruct (timeouts r).
    + now left.
Qed.

(** ** Reset *)

(** The Reset button, whose handler is the one of the current render:
    it stops the timer, restores [timeLeft] to 1500 in a focus period and
    to 300 in a break, and clears [startTime].  In particular a reset
    during the long break that follows a count [c] with [c > 0] and
    [(c+1) mod 4 = 0] leaves 300 seconds, not the 900 the break began
    with. *)
Theorem resetTimer_spec :
  (forall s : TimerState,
     isRunning (resetTimer s) = false /\
     timeLeft (resetTimer s) =
       match sessionType s with
       | focus => 1500
       | break => 300
       end /\
     startTime (resetTimer s) = None) /\
  (forall s : TimerState,
     sessionType s = focus ->
     0 < sessionCount s ->
     (sessionCount s + 1) mod 4 = 0 ->
     timeLeft (switchSession s) = 900 /\
     sessionType (switchSession s) = break /\
     timeLeft (resetTimer (switchSession s)) = 300).
Proof.
  split.
  - intros s. unfold resetTimer. cbn.
    destruct (sessionType s); repeat split.
  - intros s Hty Hpos Hmod.
    rewrite (switchSession_focus s Hty).
    assert (L : (0 <? sessionCount s) && (Z.rem (sessionCount s + 1) 4 =? 0)
                = true).
    { apply isLongBreak_spec; [lia | split; assumption]. }
    rewrite L. repeat split.
Qed.

Lemma resetTimer_spec_witness :
  let s := {| timeLeft := 1500; isRunning := false; sessionType := focus;
              sessionCount := 3; startTime := None |} in
  timeLeft (switchSession s) = 900 /\
  sessionType (switchSession s) = break /\
  timeLeft (resetTimer (switchSession s)) = 300.
Proof.
  intros s.
  apply (proj2 resetTimer_spec s); [reflexivity | cbn; lia | reflexivity].
Defined.

(** C10: [reset()] changes neither [sessionType] nor [sessionCount], as a
    handler on the state and as a step of the mounted component. *)
Theorem resetTimer_frame :
  (forall s : TimerState,
     sessionType (resetTimer s) = sessionType s /\
     sessionCount (resetTimer s) = sessionCount s) /\
  (forall r : Timer,
     sessionType (state (step Reset r)) = sessionType (state r) /\
     sessionCount (state (step Reset r)) = sessionCount (state r)).
Proof.
  split.
  - intros s. split; reflexivity.
  - intros r. unfold step, command. destruct (mounted r); split; reflexivity.
Qed.

(** ** Start and pause *)

(** C6: [pause()] sets [isRunning = false] and changes no other field;
    [start()] sets [isRunning = true], so start followed by pause leaves a
    paused timer with [timeLeft] as it was; a start after a pause gives
    back the state the first start produced; in general a start after a
    pause is running again, from the same [timeLeft] and from the same
    [startTime] whenever one was set; and on the mounted component the
    first tick after pause and start counts down from where the timer
    was paused. *)
Theorem pauseTimer_frame :
  (forall s : TimerState,
     isRunning (pauseTimer s) = false /\
     timeLeft (pauseTimer s) = timeLeft s /\
     sessionType (pauseTimer s) = sessionType s /\
     sessionCount (pauseTimer s) = sessionCount s /\
     startTime (pauseTimer s) = startTime s) /\
  (forall (now : Date) (s : TimerState),
     isRunning (startTimer now s) = true /\
     isRunning (pauseTimer (startTimer now s)) = false /\
     timeLeft (pauseTimer (startTimer now s)) = timeLeft s) /\
  (forall (now now' : Date) (s : TimerState),
     startTimer now' (pauseTimer (startTimer now s)) = startTimer now s) /\
  (forall (now : Date) (s : TimerState),
     isRunning (startTimer now (pauseTimer s)) = true /\
     timeLeft (startTimer now (pauseTimer s)) = timeLeft s /\
     sessionType (startTimer now (pauseTimer s)) = sessionType s /\
     sessionCount (startTimer now (pauseTimer s)) = sessionCount s /\
     startTime (startTimer now (pauseTimer s)) =
       match startTime s with
       | Some t => Some t
       | None => Some now
       end) /\
  (forall (now : Date) (r : Timer),
     mounted r = true ->
     1 < timeLeft (state r) ->
     interval (step Pause r) = false /\
     interval (step (Start now) (step Pause r)) = true /\
     timeLeft (state (step Tick (step (Start now) (step Pause r)))) =
       timeLeft (state r) - 1).
Proof.
  split; [| split; [| split; [| split]]].
  - intros s. repeat split.
  - intros now [tl run ty c [t |]]; repeat split.
  - intros now now' [tl run ty c [t |]]; reflexivity.
  - intros now [tl run ty c [t |]]; repeat split.
  - intros now r Hm Hlt.
    destruct r as [h [tl run ty c st] m i tos cs ts].
    cbn [mounted state timeLeft] in Hm, Hlt. subst m.
    assert (Hpos : (0 <? tl) = true) by (apply Z.ltb_lt; lia).
    assert (Hgt : (tl <=? 1) = false) by (apply Z.leb_gt; lia).
    split; [reflexivity |].
    destruct st as [t |];
      cbv [step command tick update effectGuard startTimer pauseTimer
           setIsRunning setStartTime setTimeLeft mounted state interval
           isRunning timeLeft startTime];
      rewrite Hpos; cbv [andb]; rewrite Hgt; split; reflexivity.
Qed.

Lemma pauseTimer_frame_witness :
  interval (step Pause (ticks 10 (started 1))) = false /\
  interval (step (Start 2) (step Pause (ticks 10 (started 1)))) = true /\
  timeLeft (state (step Tick (step (Start 2)
                                (step Pause (ticks 10 (started 1)))))) =
    timeLeft (state (ticks 10 (started 1))) - 1.
Proof.
  apply (proj2 (proj2 (proj2 (proj2 pauseTimer_frame))) 2
           (ticks 10 (started 1))).
  - reflexivity.
  - vm_compute. reflexivity.
Defined.

(** What holds of every reachable timer: while mounted the interval is
    live exactly when the guard of line 70 holds, and a running timer has
    its [startTime] set. *)
Lemma reachable_inv (handler : bool) (r : Timer) :
  reachable handler r ->
  (mounted r = true -> interval r = effectGuard (state r)) /\
  (isRunning (state r) = true -> startTime (state r) <> None).
Proof.
  intros Hr. induction Hr as [| op r _ [IHi IHs]].
  - split; [reflexivity | discriminate].
  - destruct r as [h [tl run ty c st] m i tos cs ts].
    cbn [state mounted interval isRunning startTime] in IHi, IHs.
    destruct op as [t0 | | | | | |]; unfold step, command, tick, fireTimeout;
      cbn [state mounted interval isRunning startTime timeLeft timeouts].
    + destruct m; [| split; [discriminate | exact IHs]].
      split; [reflexivity |]. intros _. destruct st; discriminate.
    + destruct m; [| split; [discriminate | exact IHs]].
      split; [reflexivity | discriminate].
    + destruct m; [| split; [discriminate | exact IHs]].
      split; [reflexivity | discriminate].
    + destruct m; [| split; [discriminate | exact IHs]].
      split; [reflexivity | discriminate].
    + destruct i; [| split; [exact IHi | exact IHs]].
      destruct (tl <=? 1).
      * split; [reflexivity | discriminate].
      * split; [reflexivity | exact IHs].
    + destruct tos as [| rd rest]; [split; [exact IHi | exact IHs] |].
      destruct m; [| split; [discriminate | exact IHs]].
      split; [reflexivity | discriminate].
    + split; [discriminate | exact IHs].
Qed.

(** C7: [start()] on a running state whose [startTime] is set returns the
    same state, and [pause()] on a state that is not running returns the
    same state; both handlers are total.  On a reachable timer a running
    state always has its [startTime] set, so there a Start while running,
    and a Pause while paused, leave the whole component as it is. *)
Theorem start_pause_noop :
  (forall (now t : Date) (s : TimerState),
     isRunning s = true -> startTime s = Some t -> startTimer now s = s) /\
  (forall s : TimerState, isRunning s = false -> pauseTimer s = s) /\
  (forall (handler : bool) (r : Timer) (now : Date),
     reachable handler r -> isRunning (state r) = true ->
     step (Start now) r = r) /\
  (forall (handler : bool) (r : Timer),
     reachable handler r -> isRunning (state r) = false ->
     step Pause r = r).
Proof.
  assert (A : forall (now t : Date) (s : TimerState),
             isRunning s = true -> startTime s = Some t ->
             startTimer now s = s).
  { intros now t [tl run ty c st]; cbn; intros -> ->. reflexivity. }
  assert (B : forall s : TimerState, isRunning s = false -> pauseTimer s = s).
  { intros [tl run ty c st]; cbn; intros ->. reflexivity. }
  split; [exact A | split; [exact B | split]].
  - intros h r now Hr Hrun.
    destruct (reachable_inv h r Hr) as [Hi Hs].
    unfold step, command. destruct (mounted r) eqn:Hm; [| reflexivity].
    destruct (startTime (state r)) as [t |] eqn:Hst; [| now elim (Hs Hrun)].
    rewrite (A now t (state r) Hrun Hst).
    specialize (Hi eq_refl).
    destruct r as [h' s m i tos cs ts]; cbn in *.
    unfold update; cbn. now subst.
  - intros h r Hr Hrun.
    destruct (reachable_inv h r Hr) as [Hi _].
    unfold step, command. destruct (mounted r) eqn:Hm; [| reflexivity].
    rewrite (B (state r) Hrun).
    specialize (Hi eq_refl).
    destruct r as [h' s m i tos cs ts]; cbn in *.
    unfold update; cbn. now subst.
Qed.

Lemma start_pause_noop_witness :
  step (Start 9) (started 5) = started 5 /\
  step Pause (mount true) = mount true.
Proof.
  split.
  - apply (proj1 (proj2 (proj2 start_pause_noop)) true).
    + apply (reachable_step true (Start 5)), reachable_mount.
    + reflexivity.
  - apply (proj2 (proj2 (proj2 start_pause_noop)) true).
    + apply reachable_mount.
    + reflexivity.
Defined.

(** ** The session counter *)

Lemma switchSession_in_count (rd : Render) (s : TimerState) :
  sessionCount (switchSession_in rd s) =
  match r_sessionType rd with
  | focus => sessionCount s + 1
  | break => sessionCount s
  end.
Proof. unfold switchSession_in. now destruct (r_sessionType rd). Qed.

Lemma switchSession_in_type (rd : Render) (s : TimerState) :
  sessionType (switchSession_in rd s) =
  match r_sessionType rd with
  | focus => break
  | break => focus
  end.
Proof. unfold switchSession_in. now destruct (r_sessionType rd). Qed.

(** How each operation moves the counter and the session type. *)
Lemma step_count (op : Op) (r : Timer) :
  (sessionCount (state (step op r)) = sessionCount (state r) /\
   (sessionType (state r) = focus ->
    sessionType (state (step op r)) = focus)) \/
  (sessionCount (state (step op r)) = sessionCount (state r) + 1 /\
   sessionType (state (step op r)) = break /\
   (op = Timeout \/ sessionType (state r) = focus)).
Proof.
  destruct op as [t0 | | | | | |]; unfold step, command.
  - left. destruct (mounted r); [| now split].
    cbn [update state]. unfold startTimer.
    destruct (startTime (state r)); now split.
  - left. destruct (mounted r); now split.
  - left. destruct (mounted r); now split.
  - destruct (mounted r); [| left; now split].
    cbn [update state]. unfold switchSession.
    rewrite switchSession_in_count, switchSession_in_type.
    cbn [render r_sessionType].
    destruct (sessionType (state r)) eqn:Hty.
    + right. repeat split. now right.
    + left. split; [reflexivity | discriminate].
  - left. unfold tick. destruct (interval r); [| now split].
    destruct (timeLeft (state r) <=? 1); now split.
  - unfold fireTimeout. destruct (timeouts r) as [| rd rest]; [left; now split |].
    cbn [state]. destruct (mounted r); [| left; now split].
    rewrite switchSession_in_count, switchSession_in_type.
    destruct (r_sessionType rd).
    + right. repeat split. now left.
    + left. now split.
  - left. now split.
Qed.

(** The counter under the buttons, the ticks, the deferred switch and
    unmounting: [sessionCount] is never negative and never decreases;
    every Focus-to-Break transition increases it by exactly 1; start,
    pause, reset, tick, unmount and the Switch button change it only in a
    Focus-to-Break transition; and the Switch button pressed in a focus
    period increases it by 1 whether or not that period has run to
    completion, without any completion being reported. *)
Theorem sessionCount_steps :
  (forall (handler : bool) (r : Timer),
     reachable handler r -> 0 <= sessionCount (state r)) /\
  (forall (op : Op) (r : Timer),
     sessionCount (state r) <= sessionCount (state (step op r))) /\
  (forall (op : Op) (r : Timer),
     sessionType (state r) = focus ->
     sessionType (state (step op r)) = break ->
     sessionCount (state (step op r)) = sessionCount (state r) + 1) /\
  (forall (op : Op) (r : Timer),
     op <> Timeout ->
     sessionCount (state (step op r)) = sessionCount (state r) \/
     (sessionType (state r) = focus /\
      sessionType (state (step op r)) = break)) /\
  (forall r : Timer,
     mounted r = true ->
     sessionType (state r) = focus ->
     sessionCount (state (step Switch r)) = sessionCount (state r) + 1 /\
     completed (step Switch r) = completed r).
Proof.
  split; [| split; [| split; [| split]]].
  - intros h r Hr. induction Hr as [| op r _ IH]; [discriminate |].
    destruct (step_count op r) as [[E _] | [E _]]; rewrite E; lia.
  - intros op r.
    destruct (step_count op r) as [[E _] | [E _]]; rewrite E; lia.
  - intros op r Hf Hb.
    destruct (step_count op r) as [[_ K] | [E _]]; [| exact E].
    rewrite (K Hf) in Hb. discriminate.
  - intros op r Hop.
    destruct (step_count op r) as [[E _] | [_ [Hb [Ht | Hf]]]].
    + now left.
    + contradiction.
    + right. now split.
  - intros r Hm Hf. unfold step, command. rewrite Hm.
    cbn [update state completed].
    rewrite (switchSession_focus _ Hf). split; reflexivity.
Qed.

Lemma sessionCount_steps_witness :
  0 <= sessionCount (state (step Switch (mount true))) /\
  sessionCount (state (step Switch (mount true))) =
    sessionCount (state (mount true)) + 1.
Proof.
  split.
  - apply (proj1 sessionCount_steps true).
    apply reachable_step, reachable_mount.
  - apply (proj1 (proj2 (proj2 sessionCount_steps)) Switch (mount true));
      reflexivity.
Defined.

(** On the freshly mounted timer no focus period has been started, no
    tick has fired and nothing has been reported, yet the Switch button
    moves [sessionCount] from 0 to 1. *)
Lemma switch_counts_unfinished_session :
  timeLeft (state (mount true)) = focusDuration /\
  completed (step Switch (mount true)) = [] /\
  sessionCount (state (mount true)) = 0 /\
  sessionCount (state (step Switch (mount true))) = 1.
Proof. repeat split. Qed.

(** ** Unmounting *)

Lemma unmounted_step (op : Op) (r : Timer) :
  mounted r = false -> interval r = false ->
  mounted (step op r) = false /\ interval (step op r) = false /\
  state (step op r) = state r.
Proof.
  intros Hm Hi.
  destruct op as [t0 | | | | | |]; unfold step, command;
    rewrite ?Hm; try (repeat split; assumption).
  - rewrite (tick_idle r Hi). repeat split; assumption.
  - unfold fireTimeout. destruct (timeouts r) as [| rd rest];
      [repeat split; assumption |].
    cbn [mounted interval state]. rewrite Hm. repeat split; assumption.
Qed.

Lemma unmounted_run (ops : list Op) :
  forall r : Timer,
    mounted r = false -> interval r = false ->
    state (run ops r) = state r.
Proof.
  induction ops as [| op ops IH]; intros r Hm Hi; [reflexivity |].
  destruct (unmounted_step op r Hm Hi) as [Hm' [Hi' Hs']].
  change (run (op :: ops) r) with (run ops (step op r)).
  now rewrite IH, Hs'.
Qed.

(** C9 (amended): unmounting clears the tick interval, so no tick
    decrement happens afterwards, and no operation changes the state cells
    after disposal; but a pending deferred auto-switch timeout is not
    cancelled, it stays scheduled as it was. *)
Theorem unmount_clears_interval_only (r : Timer) :
  interval (step Unmount r) = false /\
  (forall n : nat, ticks n (step Unmount r) = step Unmount r) /\
  (forall ops : list Op, state (run ops (step Unmount r)) = state r) /\
  timeouts (step Unmount r) = timeouts r.
Proof.
  split; [reflexivity | split; [| split; [| reflexivity]]].
  - intros n. now apply ticks_idle.
  - intros ops. now rewrite unmounted_run.
Qed.

(** C9 (as stated) fails: a timer that completed a focus period and was
    reset and started again within the second is running, has a live
    interval and a pending deferred switch; unmounting it leaves that
    timeout pending, and it still fires afterwards. *)
Lemma unmount_keeps_timeout :
  let r := run [Reset; Start 9] (ticks 1500 (started 5)) in
  isRunning (state r) = true /\
  interval r = true /\
  timeouts r = [ {| r_sessionType := focus; r_sessionCount := 0 |} ] /\
  timeouts (step Unmount r) <> [] /\
  timeouts (step Timeout (step Unmount r)) = [].
Proof. vm_compute. repeat split. discriminate. Qed.

(** ** Countdowns in general *)

(** The ticks that exhaust a running countdown. *)
Lemma ticks_finish (r : Timer) (t : Date) :
  interval r = true ->
  isRunning (state r) = true ->
  0 < timeLeft (state r) ->
  startTime (state r) = Some t ->
  ticks (Z.to_nat (timeLeft (state r))) r =
    {| onSessionComplete := onSessionComplete r;
       state := setTimeLeft 0 (setIsRunning false (state r));
       mounted := mounted r;
       interval := false;
       timeouts := timeouts r ++ [render (state r)];
       completed :=
         completed r ++
         (if onSessionComplete r
          then [ {| type := sessionType (state r);
                    duration := nominalDuration (state r) - 1;
                    timestamp := t |} ]
          else []);
       toasts := toasts r ++ [sessionType (state r)] |}.
Proof.
  intros Hi Hrun Hpos Hst.
  remember (Z.to_nat (timeLeft (state r) - 1)) as n eqn:Hn.
  assert (Hn' : timeLeft (state r) = Z.of_nat n + 1) by lia.
  replace (Z.to_nat (timeLeft (state r))) with (n + 1)%nat by lia.
  rewrite ticks_add, (ticks_countdown n r) by (try assumption; lia).
  replace (timeLeft (state r) - Z.of_nat n) with 1 by lia.
  unfold ticks, tick, update.
  cbn [interval state mounted timeouts completed toasts onSessionComplete].
  unfold effectGuard at 1. cbn [setTimeLeft isRunning timeLeft].
  rewrite Hrun. cbn [andb Z.ltb Z.compare Z.leb].
  unfold effectGuard, render, nominalDuration.
  cbn [setTimeLeft setIsRunning isRunning timeLeft startTime sessionType
       sessionCount andb].
  rewrite Hst. reflexivity.
Qed.

(** X1: a running countdown with [n + 1] seconds left needs exactly
    [n + 1] ticks.  The first [n] only count down and report nothing; the
    last one stops the timer at 0, shows the notification, schedules the
    deferred switch and, when the prop is provided, reports one session
    whose duration is one less than the length the current period is
    assigned. *)
Theorem countdown_completes (r : Timer) (n : nat) (t : Date) :
  interval r = true ->
  isRunning (state r) = true ->
  timeLeft (state r) = Z.of_nat (S n) ->
  startTime (state r) = Some t ->
  ticks (S n) r =
    {| onSessionComplete := onSessionComplete r;
       state := setTimeLeft 0 (setIsRunning false (state r));
       mounted := mounted r;
       interval := false;
       timeouts := timeouts r ++ [render (state r)];
       completed :=
         completed r ++
         (if onSessionComplete r
          then [ {| type := sessionType (state r);
                    duration := nominalDuration (state r) - 1;
                    timestamp := t |} ]
          else []);
       toasts := toasts r ++ [sessionType (state r)] |} /\
  (forall k : nat, (k <= n)%nat ->
     completed (ticks k r) = completed r /\
     timeouts (ticks k r) = timeouts r /\
     timeLeft (state (ticks k r)) = Z.of_nat (S n) - Z.of_nat k).
Proof.
  intros Hi Hrun Htl Hst. split.
  - rewrite <- (ticks_finish r t Hi Hrun) by (try assumption; lia).
    rewrite Htl, Nat2Z.id. reflexivity.
  - intros k Hk.
    rewrite ticks_countdown by (try assumption; lia).
    rewrite Htl. repeat split.
Qed.

Lemma countdown_completes_witness :
  completed (ticks 2 (ticks 1498 (started 3))) =
    [ {| type := focus; duration := 1499; timestamp := 3 |} ].
Proof.
  rewrite (proj1 (countdown_completes (ticks 1498 (started 3)) 1 3
                    eq_refl eq_refl eq_refl eq_refl)).
  reflexivity.
Defined.

(** The length the tick and the progress ring assign to a period
    (lines 31-32 and 78-79, which test the count after the increment) is
    the length [switchSession] has just set (line 55, which tests the count
    before it), when it runs as bound by the render of the state it runs
    on. *)
Lemma switchSession_nominal (s : TimerState) :
  nominalDuration (switchSession s) = timeLeft (switchSession s).
Proof.
  unfold switchSession, switchSession_in, render, nominalDuration.
  cbn [r_sessionType r_sessionCount].
  destruct (sessionType s);
    cbn [setStartTime setIsRunning setSessionCount setTimeLeft
         setSessionType sessionType sessionCount timeLeft];
    [| reflexivity].
  destruct (Z.ltb_spec 0 (sessionCount s));
    destruct (Z.ltb_spec 0 (sessionCount s + 1)); cbn [andb];
    try reflexivity; try lia.
  replace (sessionCount s + 1) with 1 by lia. reflexivity.
Qed.

(** ** What gets reported *)

(** A live interval belongs to a running timer with time left. *)
Lemma reachable_interval (handler : bool) (r : Timer) :
  reachable handler r ->
  interval r = true ->
  isRunning (state r) = true /\ 0 < timeLeft (state r).
Proof.
  assert (G : forall s, effectGuard s = true ->
                isRunning s = true /\ 0 < timeLeft s).
  { intros s H. unfold effectGuard in H.
    apply andb_true_iff in H. destruct H as [H1 H2].
    split; [exact H1 | now apply Z.ltb_lt]. }
  intros Hr. induction Hr as [| op r _ IH].
  - discriminate.
  - destruct op as [t0 | | | | | |]; unfold step, command;
      try (destruct (mounted r); [apply G | exact IH]).
    + unfold tick. destruct (interval r) eqn:Hi; [| congruence].
      destruct (timeLeft (state r) <=? 1); apply G.
    + unfold fireTimeout. destruct (timeouts r) as [| rd rest]; [exact IH |].
      cbn [interval state]. destruct (mounted r); [apply G | exact IH].
    + discriminate.
Qed.



Lemma step_handler (op : Op) (r : Timer) :
  onSessionComplete (step op r) = onSessionComplete r.
Proof.
  destruct op as [t0 | | | | | |]; unfold step, command, tick, fireTimeout.
  - now destruct (mounted r).
  - now destruct (mounted r).
  - now destruct (mounted r).
  - now destruct (mounted r).
  - destruct (interval r); [| reflexivity].
    now destruct (timeLeft (state r) <=? 1).
  - now destruct (timeouts r).
  - reflexivity.
Qed.

Lemma reachable_handler (handler : bool) (r : Timer) :
  reachable handler r -> onSessionComplete r = handler.
Proof.
  intros Hr. induction Hr as [| op r _ IH]; [reflexivity |].
  now rewrite step_handler.
Qed.

(** What the reports look like on a reachable timer. *)
Lemma reachable_reported (handler : bool) (r : Timer) :
  reachable handler r ->
  map type (completed r) = (if handler then toasts r else []) /\
  Forall reportable (completed r).
Proof.
  intros Hr. induction Hr as [| op r Hr [IHm IHf]].
  - split; [now destruct handler | constructor].
  - pose proof (reachable_handler handler r Hr) as Hh.
    destruct op as [t0 | | | | | |]; unfold step, command;
      try (destruct (mounted r); split; assumption).
    + unfold tick. destruct (interval r) eqn:Hi; [| split; assumption].
      destruct (reachable_interval handler r Hr Hi) as [Hrun Hpos].
      destruct (Z.leb_spec (timeLeft (state r)) 1) as [Hle | Hgt];
        [| split; assumption].
      cbn [completed toasts].
      destruct (startTime (state r)) as [t |] eqn:Hst;
        [| now elim (proj2 (reachable_inv handler r Hr) Hrun)].
      rewrite Hh. destruct handler.
      * split.
        -- rewrite map_app, IHm. reflexivity.
        -- apply Forall_app. split; [exact IHf |].
           constructor; [| constructor].
           unfold reportable, nominalDuration. cbn [type duration].
           replace (timeLeft (state r)) with 1 by lia.
           destruct (sessionType (state r)); [reflexivity |].
           destruct ((0 <? sessionCount (state r)) &&
                     (Z.rem (sessionCount (state r)) 4 =? 0));
             [right | left]; reflexivity.
      * rewrite app_nil_r. split; assumption.
    + unfold fireTimeout. destruct (timeouts r); split; assumption.
Qed.

(** X3: on every reachable timer the sessions reported so far are, in
    order, the periods whose end was notified: one report per notification
    when the prop is provided, none otherwise.  Each reported duration is
    1499 for a focus period and 299 or 899 for a break, never a configured
    length itself. *)
Theorem reported_sessions (handler : bool) (r : Timer) :
  reachable handler r ->
  map type (completed r) = (if handler then toasts r else []) /\
  Forall reportable (completed r) /\
  (forall x : Session,
     In x (completed r) ->
     duration x <> focusDuration /\ duration x <> breakDuration /\
     duration x <> longBreakDuration).
Proof.
  intros Hr. destruct (reachable_reported handler r Hr) as [Hm Hf].
  split; [exact Hm | split; [exact Hf |]].
  intros x Hx. rewrite Forall_forall in Hf. specialize (Hf x Hx).
  unfold reportable in Hf.
  destruct (type x); [| destruct Hf as [Hf | Hf]]; rewrite Hf;
    repeat split; discriminate.
Qed.

Lemma reachable_ticks (handler : bool) (n : nat) :
  forall r : Timer, reachable handler r -> reachable handler (ticks n r).
Proof.
  induction n as [| n IH]; intros r Hr; [exact Hr |].
  apply IH. exact (reachable_step handler Tick r Hr).
Qed.

Lemma reported_sessions_witness :
  map type (completed (ticks 1500 (started 4)))
  = toasts (ticks 1500 (started 4)) /\
  Forall reportable (completed (ticks 1500 (started 4))).
Proof.
  assert (R : reachable true (ticks 1500 (started 4))).
  { apply reachable_ticks. apply (reachable_step true (Start 4)).
    apply reachable_mount. }
  split.
  - apply (proj1 (reported_sessions true _ R)).
  - apply (proj1 (proj2 (reported_sessions true _ R))).
Defined.


(** ** Whole periods and the long-break cadence *)

Lemma switchSession_timeLeft_pos (s : TimerState) :
  0 < timeLeft (switchSession s).
Proof.
  unfold switchSession, switchSession_in, render.
  cbn [r_sessionType r_sessionCount].
  destruct (sessionType s); cbn -[Z.rem];
    [destruct ((0 <? sessionCount s) && (Z.rem (sessionCount s + 1) 4 =? 0)) |];
    reflexivity.
Qed.

(** A running countdown left alone until its deferred switch has fired. *)
Lemma finish_and_switch (r : Timer) (t : Date) :
  mounted r = true ->
  timeouts r = [] ->
  interval r = true ->
  isRunning (state r) = true ->
  0 < timeLeft (state r) ->
  startTime (state r) = Some t ->
  step Timeout (ticks (Z.to_nat (timeLeft (state r))) r) =
    {| onSessionComplete := onSessionComplete r;
       state := switchSession (state r);
       mounted := true;
       interval := false;
       timeouts := [];
       completed :=
         completed r ++
         (if onSessionComplete r
          then [ {| type := sessionType (state r);
                    duration := nominalDuration (state r) - 1;
                    timestamp := t |} ]
          else []);
       toasts := toasts r ++ [sessionType (state r)] |}.
Proof.
  intros Hm Hto Hi Hrun Hpos Hst.
  rewrite (ticks_finish r t Hi Hrun Hpos Hst).
  unfold step, fireTimeout.
  cbn [timeouts mounted state onSessionComplete completed toasts interval].
  rewrite Hto, Hm. cbn [app].
  destruct (state r) as [tl run ty c st].
  unfold switchSession, switchSession_in, render, effectGuard.
  destruct ty; reflexivity.
Qed.

(** Start, run down, deferred switch: the whole run written out. *)
Lemma runPeriod_eq (r : Timer) (t : Date) :
  mounted r = true ->
  timeouts r = [] ->
  0 < timeLeft (state r) ->
  runPeriod t r =
    {| onSessionComplete := onSessionComplete r;
       state := switchSession (state r);
       mounted := true;
       interval := false;
       timeouts := [];
       completed :=
         completed r ++
         (if onSessionComplete r
          then [ {| type := sessionType (state r);
                    duration := nominalDuration (state r) - 1;
                    timestamp := match startTime (state r) with
                                 | Some t0 => t0
                                 | None => t
                                 end |} ]
          else []);
       toasts := toasts r ++ [sessionType (state r)] |}.
Proof.
  intros Hm Hto Hpos.
  destruct r as [h [tl run ty c st] m i tos cs ts].
  cbn [mounted timeouts state timeLeft] in Hm, Hto, Hpos. subst m tos.
  assert (Hlt : (0 <? tl) = true) by (apply Z.ltb_lt; lia).
  unfold runPeriod.
  set (r1 := step (Start t) _).
  set (t1 := match st with Some t0 => t0 | None => t end).
  assert (E : step Timeout (ticks (Z.to_nat tl) r1) =
              step Timeout (ticks (Z.to_nat (timeLeft (state r1))) r1)).
  { unfold r1. now destruct st. }
  cbn [state timeLeft]. rewrite E.
  rewrite (finish_and_switch r1 t1).
  - unfold r1, t1. destruct st, ty; reflexivity.
  - reflexivity.
  - reflexivity.
  - unfold r1. destruct st; cbn; now rewrite Hlt.
  - unfold r1. now destruct st.
  - unfold r1. destruct st; cbn; lia.
  - unfold r1, t1. now destruct st.
Qed.

(** X4: starting a period, letting it run out and letting the deferred
    switch fire leaves the state cells exactly as one press of the Switch
    button would, with no timeout left pending; on the way one session is
    reported (when the prop is provided) and one notification shown. *)
Theorem natural_period_is_switch (r : Timer) (t : Date) :
  mounted r = true ->
  timeouts r = [] ->
  0 < timeLeft (state r) ->
  state (runPeriod t r) = switchSession (state r) /\
  timeouts (runPeriod t r) = [] /\
  interval (runPeriod t r) = false /\
  toasts (runPeriod t r) = toasts r ++ [sessionType (state r)] /\
  List.length (completed (runPeriod t r)) =
    (List.length (completed r) + if onSessionComplete r then 1 else 0)%nat.
Proof.
  intros Hm Hto Hpos. rewrite (runPeriod_eq r t Hm Hto Hpos).
  cbn [state timeouts interval toasts completed].
  repeat split. rewrite length_app.
  now destruct (onSessionComplete r).
Qed.

Lemma natural_period_is_switch_witness :
  state (runPeriod 8 (mount true)) = switchSession (state (mount true)).
Proof.
  apply (natural_period_is_switch (mount true) 8); reflexivity.
Defined.

Lemma runPeriods_state (ts : list Date) :
  forall r : Timer,
    mounted r = true ->
    timeouts r = [] ->
    0 < timeLeft (state r) ->
    state (runPeriods ts r) = Nat.iter (List.length ts) switchSession (state r).
Proof.
  induction ts as [| t ts IH]; intros r Hm Hto Hpos; [reflexivity |].
  change (runPeriods (t :: ts) r) with (runPeriods ts (runPeriod t r)).
  cbn [List.length]. rewrite Nat.iter_succ_r.
  rewrite IH; rewrite (runPeriod_eq r t Hm Hto Hpos); cbn [state mounted timeouts];
    try reflexivity.
  apply switchSession_timeLeft_pos.
Qed.

Lemma switchSession_iter_even (m : nat) :
  Nat.iter (2 * m) switchSession initialState =
  {| timeLeft := focusDuration; isRunning := false; sessionType := focus;
     sessionCount := Z.of_nat m; startTime := None |}.
Proof.
  induction m as [| m IH]; [reflexivity |].
  replace (2 * S m)%nat with (S (S (2 * m))) by lia.
  rewrite !Nat.iter_succ, IH.
  cbv [switchSession switchSession_in render setStartTime setIsRunning
       setTimeLeft setSessionType setSessionCount timeLeft isRunning
       sessionType sessionCount startTime r_sessionType r_sessionCount].
  f_equal. lia.
Qed.

(** X5: after an even number [2m] of natural periods from mounting the
    timer is back in a focus period of 1500 seconds with [sessionCount =
    m]; after [2m + 1] it is in the break that follows the [(m+1)]-th focus
    period, and that break is 900 seconds long exactly when [m + 1] is a
    multiple of 4, and 300 seconds otherwise. *)
Theorem natural_cadence (handler : bool) (ts : list Date) (m : nat) :
  (List.length ts = (2 * m)%nat ->
   state (runPeriods ts (mount handler)) =
     {| timeLeft := 1500; isRunning := false; sessionType := focus;
        sessionCount := Z.of_nat m; startTime := None |}) /\
  (List.length ts = (2 * m + 1)%nat ->
   state (runPeriods ts (mount handler)) =
     {| timeLeft := if (Z.of_nat m + 1) mod 4 =? 0 then 900 else 300;
        isRunning := false; sessionType := break;
        sessionCount := Z.of_nat m + 1; startTime := None |}).
Proof.
  assert (S0 : state (runPeriods ts (mount handler)) =
               Nat.iter (List.length ts) switchSession initialState).
  { now apply runPeriods_state. }
  split; intros Hlen; rewrite S0, Hlen.
  - apply switchSession_iter_even.
  - replace (2 * m + 1)%nat with (S (2 * m)) by lia.
    rewrite Nat.iter_succ, switchSession_iter_even.
    cbv [switchSession switchSession_in render setStartTime setIsRunning
         setTimeLeft setSessionType setSessionCount timeLeft isRunning
         sessionType sessionCount startTime r_sessionType r_sessionCount].
    rewrite Z.rem_mod_nonneg by lia.
    destruct (Z.ltb_spec 0 (Z.of_nat m)) as [Hp | Hz]; cbn [andb].
    + reflexivity.
    + replace (Z.of_nat m) with 0 by lia. reflexivity.
Qed.

Lemma natural_cadence_witness :
  state (runPeriods [1; 2; 3; 4; 5; 6; 7] (mount true)) =
    {| timeLeft := 900; isRunning := false; sessionType := break;
       sessionCount := 4; startTime := None |}.
Proof.
  apply (proj2 (natural_cadence true [1; 2; 3; 4; 5; 6; 7] 3)). reflexivity.
Defined.

(** X6: a reset during a long break (a break whose count is a positive
    multiple of 4) followed by Start makes the break end after 300 ticks,
    yet the session then reported carries the long break's length less
    one, 899. *)
Theorem reset_long_break_report (r : Timer) (t : Date) :
  mounted r = true ->
  onSessionComplete r = true ->
  sessionType (state r) = break ->
  0 < sessionCount (state r) ->
  Z.rem (sessionCount (state r)) 4 = 0 ->
  timeLeft (state (ticks 300 (run [Reset; Start t] r))) = 0 /\
  completed (ticks 300 (run [Reset; Start t] r)) =
    completed r ++ [ {| type := break; duration := 899; timestamp := t |} ] /\
  (forall k : nat, (k < 300)%nat ->
     completed (ticks k (run [Reset; Start t] r)) = completed r).
Proof.
  intros Hm Hh Hty Hc Hrem.
  set (r1 := run [Reset; Start t] r).
  assert (E1 : r1 =
    {| onSessionComplete := true;
       state := {| timeLeft := 300; isRunning := true; sessionType := break;
                   sessionCount := sessionCount (state r);
                   startTime := Some t |};
       mounted := true; interval := true;
       timeouts := timeouts r; completed := completed r;
       toasts := toasts r |}).
  { unfold r1. clear r1 Hc Hrem.
    destruct r as [h [tl run ty c st] m i tos cs ts].
    cbn [mounted onSessionComplete state sessionType] in Hm, Hh, Hty.
    subst m h ty. reflexivity. }
  assert (F : ticks 300 r1 = ticks (Z.to_nat (timeLeft (state r1))) r1).
  { rewrite E1. reflexivity. }
  split; [| split].
  - rewrite F, (ticks_finish r1 t) by (rewrite E1; reflexivity).
    reflexivity.
  - rewrite F, (ticks_finish r1 t) by (rewrite E1; reflexivity).
    rewrite E1. cbn [completed onSessionComplete state sessionType].
    unfold nominalDuration. cbn [sessionType sessionCount].
    assert (L : (0 <? sessionCount (state r)) = true) by now apply Z.ltb_lt.
    rewrite L, Hrem. reflexivity.
  - intros k Hk.
    rewrite ticks_countdown by (rewrite E1; cbn; try reflexivity; lia).
    rewrite E1. reflexivity.
Qed.

Lemma reset_long_break_report_witness :
  let r := run [Switch; Switch; Switch; Switch; Switch; Switch; Switch]
             (mount true) in
  timeLeft (state r) = 900 /\
  completed (ticks 300 (run [Reset; Start 6] r)) =
    [ {| type := break; duration := 899; timestamp := 6 |} ].
Proof.
  intros r. split; [reflexivity |].
  apply (proj1 (proj2 (reset_long_break_report r 6
                         eq_refl eq_refl eq_refl eq_refl eq_refl))).
Defined.

(** ** The time display *)

Lemma forallb_below (P : Z -> bool) (n : nat) :
  forallb P (map Z.of_nat (seq 0 n)) = true ->
  forall z : Z, 0 <= z < Z.of_nat n -> P z = true.
Proof.
  intros H z Hz. rewrite forallb_forall in H. apply H.
  replace z with (Z.of_nat (Z.to_nat z)) by lia.
  apply in_map, in_seq. lia.
Qed.

Lemma formatTime_digits (s : Z) :
  0 <= s < 6000 ->
  formatTime s =
  String (digit (s / 600))
    (String (digit ((s / 60) mod 10))
       (String ":"
          (String (digit ((s mod 60) / 10))
             (String (digit (s mod 10)) EmptyString)))).
Proof.
  intros Hs. apply String.eqb_eq.
  apply (forallb_below
           (fun s =>
              String.eqb (formatTime s)
                (String (digit (s / 600))
                   (String (digit ((s / 60) mod 10))
                      (String ":"
                         (String (digit ((s mod 60) / 10))
                            (String (digit (s mod 10)) EmptyString))))))
           (Z.to_nat 6000)).
  - vm_compute. reflexivity.
  - lia.
Qed.

Lemma reachable_bound (handler : bool) (r : Timer) :
  reachable handler r -> 0 <= timeLeft (state r) <= 1500.
Proof.
  intros Hr. induction Hr as [| op r _ IH].
  - vm_compute. split; discriminate.
  - now apply step_bound.
Qed.

(** X7: on every reachable timer the display [formatTime(timeLeft)] is
    exactly five characters: two decimal digits of minutes, a colon, two
    decimal digits of seconds, zero-padded. *)
Theorem formatTime_reachable (handler : bool) (r : Timer) :
  reachable handler r ->
  let s := timeLeft (state r) in
  formatTime s =
    String (digit (s / 600))
      (String (digit ((s / 60) mod 10))
         (String ":"
            (String (digit ((s mod 60) / 10))
               (String (digit (s mod 10)) EmptyString)))) /\
  String.length (formatTime s) = 5%nat.
Proof.
  intros Hr s.
  assert (Hs : 0 <= s < 6000).
  { pose proof (reachable_bound handler r Hr). unfold s. lia. }
  rewrite (formatTime_digits s Hs). split; reflexivity.
Qed.

Lemma formatTime_reachable_witness :
  formatTime (timeLeft (state (ticks 61 (started 2)))) = "23:59"%string.
Proof.
  rewrite (proj1 (formatTime_reachable true (ticks 61 (started 2))
                    (reachable_ticks true 61 _
                       (reachable_step true (Start 2) _
                          (reachable_mount true))))).
  reflexivity.
Defined.

Lemma digit_inj (a b : Z) :
  0 <= a < 10 -> 0 <= b < 10 -> digit a = digit b -> a = b.
Proof.
  intros Ha Hb H. unfold digit in H.
  apply (f_equal nat_of_ascii) in H.
  rewrite !nat_ascii_embedding in H by lia. lia.
Qed.

(** X8: below 100 minutes two different numbers of seconds are never
    displayed alike. *)
Theorem formatTime_injective (a b : Z) :
  0 <= a < 6000 -> 0 <= b < 6000 ->
  formatTime a = formatTime b -> a = b.
Proof.
  intros Ha Hb H.
  rewrite (formatTime_digits a Ha), (formatTime_digits b Hb) in H.
  injection H as H1 H2 H3 H4.
  apply digit_inj in H1; [| Z.div_mod_to_equations; lia ..].
  apply digit_inj in H2; [| Z.div_mod_to_equations; lia ..].
  apply digit_inj in H3; [| Z.div_mod_to_equations; lia ..].
  apply digit_inj in H4; [| Z.div_mod_to_equations; lia ..].
  Z.div_mod_to_equations. lia.
Qed.

Lemma formatTime_injective_witness :
  formatTime (1499 + 1) = formatTime (25 * 60) /\ 1499 + 1 = 25 * 60.
Proof.
  split; [reflexivity |].
  apply (formatTime_injective (1499 + 1) (25 * 60)); [lia | lia | reflexivity].
Defined.

(** ** Keyboard shortcuts *)

(** While the timer is idle with no [startTime], a Ctrl+B press changes
    neither dependency of the keyboard effect, so the listener stays. *)
Lemma ctrlB_press (k : Keyed) :
  mounted (timer k) = true ->
  isRunning (state (timer k)) = false ->
  startTime (state (timer k)) = None ->
  sessionType (listener k) = focus ->
  state (timer (kstep (Press CtrlB) k)) =
    {| timeLeft := if isLongBreak (sessionCount (listener k))
                   then longBreakDuration else breakDuration;
       isRunning := false;
       sessionType := break;
       sessionCount := sessionCount (state (timer k)) + 1;
       startTime := None |} /\
  mounted (timer (kstep (Press CtrlB) k)) = true /\
  listener (kstep (Press CtrlB) k) = listener k.
Proof.
  intros Hm Hrun Hst Hty.
  destruct k as [[h [tl run ty c st] m i tos cs ts] cap].
  cbn [timer listener mounted state isRunning startTime] in *.
  subst m run st.
  unfold kstep, command, handleKeyPress, switchSession_in, render, isLongBreak.
  cbn [timer listener mounted update state r_sessionType r_sessionCount].
  rewrite Hty. repeat split.
Qed.

(** X9: the keyboard listener is the one of the render in which
    [isRunning] or [startTime] last changed.  On an idle timer whose
    listener was registered in a focus period, every Ctrl+B press therefore
    takes the focus branch again: after one or more presses the timer is in
    a break, never back in focus, the break length is the one computed from
    the listener's count, and [sessionCount] has grown by the number of
    presses. *)
Theorem ctrlB_stays_in_break (k : Keyed) (n : nat) :
  mounted (timer k) = true ->
  isRunning (state (timer k)) = false ->
  startTime (state (timer k)) = None ->
  sessionType (listener k) = focus ->
  state (timer (presses (S n) CtrlB k)) =
    {| timeLeft := if isLongBreak (sessionCount (listener k))
                   then longBreakDuration else breakDuration;
       isRunning := false;
       sessionType := break;
       sessionCount := sessionCount (state (timer k)) + Z.of_nat (S n);
       startTime := None |} /\
  listener (presses (S n) CtrlB k) = listener k.
Proof.
  intros Hm Hrun Hst Hty.
  assert (G : state (timer (presses (S n) CtrlB k)) =
              {| timeLeft := if isLongBreak (sessionCount (listener k))
                             then longBreakDuration else breakDuration;
                 isRunning := false;
                 sessionType := break;
                 sessionCount :=
                   sessionCount (state (timer k)) + Z.of_nat (S n);
                 startTime := None |} /\
              mounted (timer (presses (S n) CtrlB k)) = true /\
              listener (presses (S n) CtrlB k) = listener k).
  { induction n as [| n [IHs [IHm IHl]]].
    - destruct (ctrlB_press k Hm Hrun Hst Hty) as [E [M L]].
      change (presses 1 CtrlB k) with (kstep (Press CtrlB) k).
      rewrite E. repeat split; [exact M | exact L].
    - change (presses (S (S n)) CtrlB k)
        with (kstep (Press CtrlB) (presses (S n) CtrlB k)).
      destruct (ctrlB_press (presses (S n) CtrlB k)) as [E [M L]].
      + exact IHm.
      + now rewrite IHs.
      + now rewrite IHs.
      + now rewrite IHl.
      + rewrite E, L, IHl, IHs. cbn [sessionCount].
        repeat split; [| exact M].
        f_equal. lia. }
  split; [apply G | apply G].
Qed.

Lemma ctrlB_stays_in_break_witness :
  state (timer (presses 2 CtrlB (mountKeyed true))) =
    {| timeLeft := 300; isRunning := false; sessionType := break;
       sessionCount := 2; startTime := None |}.
Proof.
  apply (proj1 (ctrlB_stays_in_break (mountKeyed true) 1
                  eq_refl eq_refl eq_refl eq_refl)).
Defined.

Lemma sameStartTime_eq (a b : option Date) :
  sameStartTime a b = true -> a = b.
Proof.
  destruct a as [x |], b as [y |]; cbn; try discriminate; [| reflexivity].
  intros H. apply Z.eqb_eq in H. now subst.
Qed.

Lemma step_mounted (op : Op) (r : Timer) :
  mounted (step op r) = true -> mounted r = true.
Proof.
  destruct op as [t0 | | | | | |]; unfold step, command, tick, fireTimeout.
  - destruct (mounted r) eqn:E; cbn; congruence.
  - destruct (mounted r) eqn:E; cbn; congruence.
  - destruct (mounted r) eqn:E; cbn; congruence.
  - destruct (mounted r) eqn:E; cbn; congruence.
  - destruct (interval r); [| exact (fun H => H)].
    now destruct (timeLeft (state r) <=? 1).
  - now destruct (timeouts r).
  - discriminate.
Qed.

(** The listener always holds the live [isRunning] and [startTime]. *)
Lemma listener_fresh (handler : bool) (k : Keyed) :
  reachableKeyed handler k ->
  mounted (timer k) = true ->
  isRunning (listener k) = isRunning (state (timer k)) /\
  startTime (listener k) = startTime (state (timer k)).
Proof.
  intros Hk. induction Hk as [| e k _ IH]; [now split |].
  unfold kstep. cbn [timer listener].
  set (t' := match e with
             | Ui op => step op (timer k)
             | Press key => command (handleKeyPress key (listener k)) (timer k)
             end).
  intros Hm'. rewrite Hm'. cbn [andb].
  assert (Hm : mounted (timer k) = true).
  { unfold t' in Hm'. destruct e as [op | key].
    - now apply step_mounted in Hm'.
    - unfold command in Hm'.
      destruct (mounted (timer k)) eqn:E; [reflexivity | congruence]. }
  specialize (IH Hm). destruct IH as [IHr IHs].
  destruct (depsChanged (state (timer k)) (state t')) eqn:Hd; [now split |].
  unfold depsChanged in Hd. apply orb_false_iff in Hd.
  destruct Hd as [Hd1 Hd2].
  apply negb_false_iff in Hd1, Hd2.
  apply Bool.eqb_prop in Hd1. apply sameStartTime_eq in Hd2.
  split; congruence.
Qed.

(** X10: Ctrl+Space is never stale.  On every reachable timer it does
    exactly what the Start/Pause button does: it pauses a running timer and
    starts a paused one. *)
Theorem ctrlSpace_is_button (handler : bool) (k : Keyed) (now : Date) :
  reachableKeyed handler k ->
  timer (kstep (Press (CtrlSpace now)) k) =
  step (if isRunning (state (timer k)) then Pause else Start now) (timer k).
Proof.
  intros Hk. pose proof (listener_fresh handler k Hk) as F.
  unfold kstep. cbn [timer]. unfold command, handleKeyPress.
  destruct (mounted (timer k)) eqn:Hm.
  - destruct (F eq_refl) as [Fr Fs]. rewrite Fr.
    destruct (isRunning (state (timer k))); unfold step, command;
      rewrite Hm; [reflexivity |].
    unfold startTimer_in, startTimer. now rewrite Fs.
  - destruct (isRunning (state (timer k))); unfold step, command;
      now rewrite Hm.
Qed.

Lemma ctrlSpace_is_button_witness :
  timer (kstep (Press (CtrlSpace 7))
           (kstep (Press CtrlB) (mountKeyed true))) =
  step (Start 7) (timer (kstep (Press CtrlB) (mountKeyed true))).
Proof.
  apply (ctrlSpace_is_button true).
  apply reachableKeyed_step, reachableKeyed_mount.
Defined.

(** X11: Ctrl+R after the Switch button on an idle timer.  The button
    changes the session type but neither dependency of the keyboard
    effect, so the listener's [resetTimer] still sees the old type: the
    new period is given the length of the old one (1500 seconds for a
    break entered from focus, 300 for a focus period entered from a
    break). *)
Theorem ctrlR_after_switch (k : Keyed) :
  mounted (timer k) = true ->
  isRunning (state (timer k)) = false ->
  startTime (state (timer k)) = None ->
  sessionType (listener k) = sessionType (state (timer k)) ->
  let k' := kstep (Press CtrlR) (kstep (Ui Switch) k) in
  sessionType (state (timer k')) =
    match sessionType (state (timer k)) with
    | focus => break
    | break => focus
    end /\
  timeLeft (state (timer k')) =
    match sessionType (state (timer k)) with
    | focus => focusDuration
    | break => breakDuration
    end.
Proof.
  intros Hm Hrun Hst Hty.
  destruct k as [[h [tl run ty c st] m i tos cs ts] cap].
  cbn [timer listener mounted state isRunning startTime sessionType] in *.
  subst m run st.
  unfold kstep, step, command.
  cbn [timer listener mounted update state].
  unfold depsChanged, switchSession, switchSession_in, render.
  cbn [r_sessionType]. unfold handleKeyPress, resetTimer_in.
  destruct ty; cbn -[Z.rem]; rewrite Hty; split; reflexivity.
Qed.

Lemma ctrlR_after_switch_witness :
  let k' := kstep (Press CtrlR) (kstep (Ui Switch) (mountKeyed true)) in
  sessionType (state (timer k')) = break /\
  timeLeft (state (timer k')) = focusDuration.
Proof.
  apply (ctrlR_after_switch (mountKeyed true)); reflexivity.
Defined.

(** * Facts about the task list *)

Module TaskManagerFacts.
Import TaskManager.

Lemma filter_split_length {A : Type} (f : A -> bool) (l : list A) :
  (List.length (List.filter f l) +
   List.length (List.filter (fun x => negb (f x)) l))%nat = List.length l.
Proof.
  induction l as [| x l IH]; [reflexivity |].
  cbn [List.filter]. destruct (f x); cbn [negb List.length]; lia.
Qed.

(** X12: the three counters always add up, [completed + active = total],
    and the list shown under each filter has as many entries as the
    counter of that filter says. *)
Theorem stats_partition (st : State) :
  (completedCount (stats st) + activeCount (stats st))%nat = total (stats st)
  /\ List.length (filteredTasks st) =
     match filter st with
     | all => total (stats st)
     | active => activeCount (stats st)
     | done => completedCount (stats st)
     end.
Proof.
  split.
  - unfold stats. cbn [completedCount activeCount total].
    apply (filter_split_length (fun t => completed t)).
  - unfold filteredTasks, stats. cbn [completedCount activeCount total].
    destruct (filter st); try reflexivity.
    f_equal. induction (tasks st) as [| x l IH]; [reflexivity |].
    cbn [List.filter]. now rewrite IH.
Qed.

Lemma toggle_map_absent (i : string) (now : Date) (l : list Task) :
  ~ In i (map id l) ->
  map (fun task => if String.eqb (id task) i then toggled now task else task) l
  = l /\
  forall h : bool,
    flat_map
      (fun task =>
         if String.eqb (id task) i
         then if completed (toggled now task) && h
              then [toggled now task] else []
         else []) l = [].
Proof.
  induction l as [| x l IH]; intros Hn; [now split |].
  cbn [map In] in Hn.
  destruct (String.eqb_spec (id x) i) as [E | E]; [tauto |].
  destruct IH as [IH1 IH2]; [tauto |].
  split.
  - cbn [map]. destruct (String.eqb_spec (id x) i); [tauto |].
    now rewrite IH1.
  - intros h. cbn [flat_map].
    destruct (String.eqb_spec (id x) i); [tauto |].
    now rewrite IH2.
Qed.

(** X13: [toggleTask] never adds, removes or reorders tasks and never
    changes an id, a title, a tag or a creation date; called with an id no
    task has, it leaves the list as it is and reports nothing. *)
Theorem toggleTask_frame (i : string) (now : Date) (st : State) :
  map id (tasks (toggleTask i now st)) = map id (tasks st) /\
  map title (tasks (toggleTask i now st)) = map title (tasks st) /\
  map tag (tasks (toggleTask i now st)) = map tag (tasks st) /\
  map createdAt (tasks (toggleTask i now st)) = map createdAt (tasks st) /\
  (~ In i (ids st) ->
   tasks (toggleTask i now st) = tasks st /\
   reported (toggleTask i now st) = reported st).
Proof.
  unfold toggleTask, ids. cbn [tasks reported].
  repeat split.
  - rewrite map_map. apply map_ext. intros t.
    now destruct (String.eqb (id t) i).
  - rewrite map_map. apply map_ext. intros t.
    now destruct (String.eqb (id t) i).
  - rewrite map_map. apply map_ext. intros t.
    now destruct (String.eqb (id t) i).
  - rewrite map_map. apply map_ext. intros t.
    now destruct (String.eqb (id t) i).
  - now apply toggle_map_absent.
  - destruct (toggle_map_absent i now (tasks st) H) as [_ F].
    rewrite F. apply app_nil_r.
Qed.

Lemma toggleTask_frame_witness :
  let st := fold_left (fun acc c => step (fun s => s) c acc)
              [SetTitle "read"; Add "u1" 1; SetTitle "write"; Add "u2" 2;
               Toggle "u2" 3]
              (initial true) in
  ids st = ["u2"; "u1"]%string /\
  tasks (toggleTask "u3" 4 st) = tasks st /\
  reported (toggleTask "u3" 4 st) = reported st.
Proof.
  intros st. split; [reflexivity |].
  apply (proj2 (proj2 (proj2 (proj2 (toggleTask_frame "u3" 4 st))))).
  intros [H | [H | []]]; discriminate H.
Defined.

Lemma step_consistent (trim : string -> string) (c : Cmd) (st : State) :
  Forall consistent (tasks st) ->
  Forall (fun t => completed t = true /\ completedAt t <> None) (reported st) ->
  Forall consistent (tasks (step trim c st)) /\
  Forall (fun t => completed t = true /\ completedAt t <> None)
    (reported (step trim c st)).
Proof.
  intros Ht Hr. destruct c as [text | t | f | uuid now | i now | i];
    cbn [step]; try (split; assumption).
  - unfold addTask.
    destruct (String.eqb (trim (newTaskTitle st)) EmptyString);
      [split; assumption |].
    cbn [tasks reported]. split; [| assumption].
    constructor; [| assumption].
    unfold consistent. cbn. split; [discriminate | congruence].
  - unfold toggleTask. cbn [tasks reported]. split.
    + apply Forall_map. apply (Forall_impl _ (P := consistent)); [| exact Ht].
      intros t Hc. destruct (String.eqb (id t) i); [| exact Hc].
      unfold consistent, toggled. cbn.
      destruct (completed t); cbn; split; congruence.
    + apply Forall_app. split; [exact Hr |].
      apply Forall_flat_map. apply Forall_forall. intros t _.
      destruct (String.eqb (id t) i); [| constructor].
      unfold toggled. cbn [completed].
      destruct (completed t); cbn [negb andb]; [constructor |].
      destruct (onTaskComplete st); constructor; [| constructor].
      cbn. split; [reflexivity | discriminate].
  - unfold deleteTask. cbn [tasks reported]. split; [| assumption].
    apply Forall_forall. intros t Hin. apply filter_In in Hin.
    rewrite Forall_forall in Ht. now apply Ht.
Qed.

(** X14: whatever the user does, a task list in which every task is
    marked completed exactly when it carries a completion date stays so
    (the empty list of a first visit is one), and every task handed to
    [onTaskComplete] was completed and dated when it was handed over. *)
Theorem tasks_consistent (trim : string -> string) (cmds : list Cmd)
    (st0 : State) :
  Forall consistent (tasks st0) ->
  Forall (fun t => completed t = true /\ completedAt t <> None)
    (reported st0) ->
  Forall consistent
    (tasks (fold_left (fun acc c => step trim c acc) cmds st0)) /\
  Forall (fun t => completed t = true /\ completedAt t <> None)
    (reported (fold_left (fun acc c => step trim c acc) cmds st0)).
Proof.
  revert st0. induction cmds as [| c cmds IH]; intros st Ht Hr;
    [now split |].
  cbn [fold_left].
  destruct (step_consistent trim c st Ht Hr) as [Ht' Hr'].
  now apply IH.
Qed.

Lemma tasks_consistent_witness :
  Forall consistent
    (tasks (fold_left (fun acc c => step (fun s => s) c acc)
              [SetTitle "ship"; Add "u1" 2; Toggle "u1" 3]
              (initial true))).
Proof.
  apply (tasks_consistent (fun s => s)
           [SetTitle "ship"; Add "u1" 2; Toggle "u1" 3] (initial true));
    constructor.
Defined.

Lemma filter_absent (i : string) (l : list Task) :
  ~ In i (map id l) ->
  List.filter (fun task => negb (String.eqb (id task) i)) l = l.
Proof.
  intros Hn. induction l as [| x l IH]; [reflexivity |].
  cbn [map In] in Hn. cbn [List.filter].
  destruct (String.eqb_spec (id x) i); [tauto |].
  cbn [negb]. rewrite IH; [reflexivity | tauto].
Qed.

Lemma filter_Subsequence (keep : Task -> bool) (ts : list Task) :
  Subsequence (List.filter keep ts) ts.
Proof.
  induction ts as [| x ts IH]; [constructor |].
  cbn [List.filter]. destruct (keep x); now constructor.
Qed.

(** X15: [deleteTask] removes every task with the given id and nothing
    else: what is left is the old list with entries left out and the
    others in their old order, no entry left has the id, and as many
    entries are gone as had the id.  With an id no task has the list is
    unchanged, and the deletion is notified all the same. *)
Theorem deleteTask_spec (i : string) (st : State) :
  Subsequence (tasks (deleteTask i st)) (tasks st) /\
  ~ In i (ids (deleteTask i st)) /\
  (List.length (tasks (deleteTask i st)) +
   List.length (List.filter (fun t => String.eqb (id t) i) (tasks st)))%nat
  = List.length (tasks st) /\
  (forall t : Task,
     In t (tasks (deleteTask i st)) <-> In t (tasks st) /\ id t <> i) /\
  (~ In i (ids st) -> tasks (deleteTask i st) = tasks st) /\
  toasts (deleteTask i st) = toasts st ++ [TaskDeleted].
Proof.
  unfold deleteTask, ids. cbn [tasks toasts].
  assert (M : forall t : Task,
             In t (List.filter (fun task => negb (String.eqb (id task) i))
                     (tasks st)) <-> In t (tasks st) /\ id t <> i).
  { intros t. rewrite filter_In, negb_true_iff.
    destruct (String.eqb_spec (id t) i); split; intros [H1 H2];
      (split; [assumption | congruence]). }
  split; [apply filter_Subsequence |].
  split; [| split; [| split; [exact M | split; [| reflexivity]]]].
  - intros Hin. apply in_map_iff in Hin. destruct Hin as [t [E Hin]].
    destruct (proj1 (M t) Hin) as [_ N]. now apply N.
  - rewrite Nat.add_comm.
    apply (filter_split_length (fun t => String.eqb (id t) i)).
  - apply filter_absent.
Qed.

Lemma deleteTask_spec_witness :
  let st := fold_left (fun acc c => step (fun s => s) c acc)
              [SetTitle "read"; Add "u1" 1; SetTitle "write"; Add "u2" 2;
               SetTitle "plan"; Add "u3" 3]
              (initial true) in
  ids st = ["u3"; "u2"; "u1"]%string /\
  ids (deleteTask "u2" st) = ["u3"; "u1"]%string /\
  tasks (deleteTask "u4" st) = tasks st.
Proof.
  intros st. split; [reflexivity | split; [reflexivity |]].
  apply (proj1 (proj2 (proj2 (proj2 (proj2 (deleteTask_spec "u4" st)))))).
  intros [H | [H | [H | []]]]; discriminate H.
Defined.

(** X16: when ids are unique, one [toggleTask] makes at most one call of
    [onTaskComplete]: none if no task has the id or if the task was
    completed (it is being reopened), and exactly one, with the task as
    just completed and dated [now], if it was active. *)
Theorem toggleTask_reports (i : string) (now : Date) (st : State) :
  onTaskComplete st = true ->
  NoDup (ids st) ->
  reported (toggleTask i now st) =
  reported st ++
  match List.find (fun t => String.eqb (id t) i) (tasks st) with
  | Some t => if completed t then [] else [toggled now t]
  | None => []
  end.
Proof.
  intros Hh Hnd. unfold toggleTask, ids in *. cbn [reported]. f_equal.
  rewrite Hh. clear Hh.
  induction (tasks st) as [| x l IH]; [reflexivity |].
  cbn [map] in Hnd. inversion Hnd as [| ? ? Hx Hl]; subst.
  cbn [flat_map List.find].
  destruct (String.eqb_spec (id x) i) as [E | E].
  - subst i.
    destruct (toggle_map_absent (id x) now l Hx) as [_ F].
    rewrite (F true), app_nil_r.
    cbn [toggled completed]. now destruct (completed x).
  - cbn [app]. now apply IH.
Qed.

Lemma toggleTask_reports_witness :
  let st := addTask (fun s => s) "u1" 5
              (step (fun s => s) (SetTitle "write") (initial true)) in
  reported (toggleTask "u1" 9 st) =
  [ {| id := "u1"; title := "write"; tag := code; completed := true;
       createdAt := 5; completedAt := Some 9 |} ].
Proof.
  intros st.
  rewrite (toggleTask_reports "u1" 9 st eq_refl).
  - reflexivity.
  - repeat constructor. intros [].
Defined.

(** X17: toggling the same id twice gives every task its [completed] flag
    back.  The list is exactly as before if and only if every task with
    that id was either active with no completion date, or completed with
    the date of the second toggle as its completion date; so it is
    restored when the id belongs to active tasks only, while a task that
    was completed comes back completed with the date of the second
    toggle. *)
Theorem toggleTask_twice (i : string) (n1 n2 : Date) (st : State) :
  map completed (tasks (toggleTask i n2 (toggleTask i n1 st))) =
    map completed (tasks st) /\
  (tasks (toggleTask i n2 (toggleTask i n1 st)) = tasks st <->
   forall t : Task,
     In t (tasks st) -> id t = i ->
     (completed t = false /\ completedAt t = None) \/
     (completed t = true /\ completedAt t = Some n2)) /\
  ((forall t : Task,
      In t (tasks st) -> id t = i ->
      completed t = false /\ completedAt t = None) ->
   tasks (toggleTask i n2 (toggleTask i n1 st)) = tasks st) /\
  (forall t : Task,
     In t (tasks st) -> id t = i -> completed t = true ->
     In {| id := id t; title := title t; tag := tag t; completed := true;
           createdAt := createdAt t; completedAt := Some n2 |}
        (tasks (toggleTask i n2 (toggleTask i n1 st)))).
Proof.
  unfold toggleTask. cbn [tasks]. rewrite !map_map.
  assert (T : forall t : Task,
             (if String.eqb
                   (id (if String.eqb (id t) i then toggled n1 t else t)) i
              then toggled n2 (if String.eqb (id t) i then toggled n1 t else t)
              else if String.eqb (id t) i then toggled n1 t else t) =
             if String.eqb (id t) i
             then {| id := id t; title := title t; tag := tag t;
                     completed := completed t; createdAt := createdAt t;
                     completedAt := if completed t then Some n2 else None |}
             else t).
  { intros t. destruct (String.eqb_spec (id t) i) as [E | E].
    - cbn [toggled id]. destruct (String.eqb_spec (id t) i); [| tauto].
      unfold toggled. cbn. rewrite negb_involutive. reflexivity.
    - destruct (String.eqb_spec (id t) i); [tauto | reflexivity]. }
  rewrite (map_ext _ _ T).
  assert (R : (forall t : Task,
                 In t (tasks st) -> id t = i ->
                 (completed t = false /\ completedAt t = None) \/
                 (completed t = true /\ completedAt t = Some n2)) ->
              map (fun t =>
                     if String.eqb (id t) i
                     then {| id := id t; title := title t; tag := tag t;
                             completed := completed t;
                             createdAt := createdAt t;
                             completedAt :=
                               if completed t then Some n2 else None |}
                     else t) (tasks st) = tasks st).
  { intros H. rewrite <- (map_id (tasks st)) at 2.
    apply map_ext_in. intros t Hin.
    destruct (String.eqb_spec (id t) i) as [E | E]; [| reflexivity].
    destruct t as [ti tt tg tc tcr tca]. cbn [id] in E.
    destruct (H _ Hin E) as [[Hc Ha] | [Hc Ha]]; cbn in Hc, Ha; subst;
      reflexivity. }
  split; [| split; [| split]].
  - apply map_ext. intros t. rewrite T.
    now destruct (String.eqb (id t) i).
  - split; [| exact R].
    intros Heq t Hin E.
    rewrite <- (map_id (tasks st)) in Heq at 2.
    pose proof (proj1 map_ext_in_iff Heq t Hin) as Ht.
    cbv beta in Ht.
    destruct (String.eqb_spec (id t) i) as [_ | N]; [| tauto].
    destruct t as [ti tt tg tc tcr tca]. cbn in Ht |- *.
    injection Ht as Ha. destruct tc; [right | left]; split; congruence.
  - intros Hact. apply R. intros t Hin E. left. now apply Hact.
  - intros t Hin E Hc. apply in_map_iff. exists t. split; [| exact Hin].
    destruct (String.eqb_spec (id t) i) as [_ | N]; [| tauto].
    rewrite Hc. reflexivity.
Qed.

Lemma toggleTask_twice_witness :
  let st := addTask (fun s => s) "u1" 5
              (step (fun s => s) (SetTitle "write") (initial true)) in
  tasks (toggleTask "u1" 8 (toggleTask "u1" 7 st)) = tasks st.
Proof.
  intros st.
  apply (proj1 (proj2 (proj2 (toggleTask_twice "u1" 7 8 st)))).
  intros t [E | []] _. subst t. split; reflexivity.
Defined.

(** X18: a title whose trimmed form is empty adds nothing, shows nothing
    and keeps the input as typed.  Otherwise the new task goes to the head
    of the list, active, and the input is cleared; and if its id is fresh,
    deleting that id afterwards gives back the list as it was. *)
Theorem addTask_spec (trim : string -> string) (uuid : string) (now : Date)
    (st : State) :
  (trim (newTaskTitle st) = EmptyString -> addTask trim uuid now st = st) /\
  (trim (newTaskTitle st) <> EmptyString ->
   tasks (addTask trim uuid now st) =
     {| id := uuid; title := trim (newTaskTitle st); tag := newTaskTag st;
        completed := false; createdAt := now; completedAt := None |}
     :: tasks st /\
   newTaskTitle (addTask trim uuid now st) = EmptyString /\
   activeCount (stats (addTask trim uuid now st)) = S (activeCount (stats st))
   /\
   (~ In uuid (ids st) ->
    tasks (deleteTask uuid (addTask trim uuid now st)) = tasks st)).
Proof.
  unfold addTask. split.
  - intros E. rewrite E. reflexivity.
  - intros N.
    destruct (String.eqb_spec (trim (newTaskTitle st)) EmptyString);
      [tauto |].
    cbn [tasks newTaskTitle]. repeat split.
    intros Hfresh. unfold deleteTask. cbn [tasks List.filter id].
    rewrite String.eqb_refl. cbn [negb].
    now apply filter_absent.
Qed.

Lemma addTask_spec_witness :
  let st := step (fun s => s) (SetTitle "read") (initial true) in
  tasks (deleteTask "u7" (addTask (fun s => s) "u7" 4 st)) = tasks st.
Proof.
  intros st.
  apply (proj2 (addTask_spec (fun s => s) "u7" 4 st)).
  - discriminate.
  - intros [].
Defined.

Lemma filtered_ids_NoDup (keep : Task -> bool) (ts : list Task) :
  NoDup (map id ts) -> NoDup (map id (List.filter keep ts)).
Proof.
  induction ts as [| x ts IH]; intros H; [constructor |].
  cbn [map] in H. inversion H as [| ? ? Hx Hts]; subst.
  cbn [List.filter]. destruct (keep x); [| now apply IH].
  cbn [map]. constructor; [| now apply IH].
  intros Hin. apply Hx. apply in_map_iff in Hin.
  destruct Hin as [y [E Hy]]. apply filter_In in Hy.
  apply in_map_iff. exists y. tauto.
Qed.

(** X19: ids stay unique as long as every id handed to [addTask] is one
    no listed task has: no command ever gives two tasks the same id. *)
Theorem ids_unique (trim : string -> string) (c : Cmd) (st : State) :
  NoDup (ids st) ->
  (forall (uuid : string) (now : Date),
     c = Add uuid now -> ~ In uuid (ids st)) ->
  NoDup (ids (step trim c st)).
Proof.
  intros Hnd Hfresh. unfold ids in *.
  destruct c as [text | t | f | uuid now | i now | i]; cbn [step tasks];
    try exact Hnd.
  - unfold addTask.
    destruct (String.eqb (trim (newTaskTitle st)) EmptyString);
      [exact Hnd |].
    cbn [tasks map id]. constructor; [| exact Hnd].
    now apply (Hfresh uuid now).
  - unfold toggleTask. cbn [tasks]. rewrite map_map.
    erewrite map_ext; [exact Hnd |].
    intros t. now destruct (String.eqb (id t) i).
  - unfold deleteTask. cbn [tasks]. now apply filtered_ids_NoDup.
Qed.

Lemma ids_unique_witness :
  NoDup (ids (step (fun s => s) (Add "u1" 3)
                (step (fun s => s) (SetTitle "plan") (initial true)))).
Proof.
  apply ids_unique.
  - constructor.
  - intros uuid now _ [].
Defined.

End TaskManagerFacts.

(** * Facts about the session log and the analytics *)

Module AnalyticsFacts.
Import Analytics.

Lemma fold_add_acc (l : list Session) (a : Z) :
  fold_left (fun acc session => acc + duration session) l a =
  a + fold_left (fun acc session => acc + duration session) l 0.
Proof.
  revert a. induction l as [| x l IH]; intros a; cbn [fold_left]; [lia |].
  rewrite IH, (IH (0 + duration x)). lia.
Qed.

Lemma totalFocusTime_app (a b : list Session) :
  totalFocusTime (a ++ b) = totalFocusTime a + totalFocusTime b.
Proof.
  unfold totalFocusTime. rewrite filter_app, fold_left_app.
  apply fold_add_acc.
Qed.

Lemma afterCalls_sessions (calls : list Session) :
  forall st : Dashboard.State,
    Dashboard.sessions (Dashboard.afterCalls calls st) =
    Dashboard.sessions st ++ calls.
Proof.
  induction calls as [| c calls IH]; intros st.
  - cbn. now rewrite app_nil_r.
  - unfold Dashboard.afterCalls in *. cbn [fold_left]. rewrite IH.
    cbn [Dashboard.handleSessionComplete Dashboard.sessions].
    now rewrite <- app_assoc.
Qed.

Lemma totalFocusTime_reportable (l : list Session) :
  Forall reportable l ->
  totalFocusTime l = 1499 * Z.of_nat (List.length (List.filter isFocus l)).
Proof.
  induction l as [| x l IH]; intros H; [reflexivity |].
  inversion H as [| ? ? Hx Hl]; subst.
  change (x :: l) with ([x] ++ l).
  rewrite totalFocusTime_app, filter_app, length_app, (IH Hl).
  unfold totalFocusTime, isFocus, reportable in *. cbn [List.filter].
  destruct (type x); cbn [fold_left List.length]; lia.
Qed.

(** X20: a dashboard that receives the reports of a timer, whatever
    happened to that timer, logs them all in order, and the total focus
    time the analytics compute over its log grows by 1499 seconds, not
    1500, for each focus period the timer completed. *)
Theorem logged_focus_time (handler : bool) (r : Timer)
    (st : Dashboard.State) :
  reachable handler r ->
  Dashboard.sessions (Dashboard.afterCalls (completed r) st) =
    Dashboard.sessions st ++ completed r /\
  totalFocusTime (Dashboard.sessions (Dashboard.afterCalls (completed r) st))
  = totalFocusTime (Dashboard.sessions st) +
    1499 * Z.of_nat (List.length (List.filter isFocus (completed r))).
Proof.
  intros Hr. rewrite afterCalls_sessions. split; [reflexivity |].
  rewrite totalFocusTime_app. f_equal.
  apply totalFocusTime_reportable.
  apply (reachable_reported handler r Hr).
Qed.

Lemma logged_focus_time_witness :
  totalFocusTime
    (Dashboard.sessions
       (Dashboard.afterCalls (completed (ticks 1500 (started 4)))
          {| Dashboard.sessions := []; Dashboard.announced := [] |}))
  = 0 + 1499 * Z.of_nat
          (List.length
             (List.filter isFocus (completed (ticks 1500 (started 4))))).
Proof.
  apply (proj2 (logged_focus_time true (ticks 1500 (started 4))
                  {| Dashboard.sessions := []; Dashboard.announced := [] |}
                  (reachable_ticks true 1500 _
                     (reachable_step true (Start 4) _
                        (reachable_mount true))))).
Defined.

Lemma tag_eqb_eq (a b : TaskManager.Tag) : tag_eqb a b = true <-> a = b.
Proof. destruct a, b; cbn; split; congruence. Qed.

Lemma tag_eqb_refl (a : TaskManager.Tag) : tag_eqb a a = true.
Proof. now destruct a. Qed.

(** The count recorded for a tag, 0 when the key is missing. *)
Lemma lookup_assign (t t' : TaskManager.Tag) (v : Z) (acc : TagCounts) :
  lookup t' (assign t v acc) =
  if tag_eqb t t' then Some v else lookup t' acc.
Proof.
  induction acc as [| [k w] acc IH].
  - cbn. reflexivity.
  - cbn [assign lookup].
    destruct (tag_eqb k t) eqn:Ekt.
    + apply tag_eqb_eq in Ekt. subst k. cbn [lookup].
      now destruct (tag_eqb t t').
    + cbn [lookup]. rewrite IH.
      destruct (tag_eqb k t') eqn:Ekt'; [| reflexivity].
      apply tag_eqb_eq in Ekt'. subst k.
      destruct (tag_eqb t t') eqn:Ett'; [| reflexivity].
      apply tag_eqb_eq in Ett'. subst t'.
      now rewrite tag_eqb_refl in Ekt.
Qed.

Lemma assign_sum (t : TaskManager.Tag) (v : Z) (acc : TagCounts) :
  sumZ (map snd (assign t v acc)) =
  sumZ (map snd acc) + v -
  match lookup t acc with Some w => w | None => 0 end.
Proof.
  induction acc as [| [k w] acc IH].
  - cbn. lia.
  - cbn [assign lookup]. destruct (tag_eqb k t); cbn [map snd sumZ fold_right].
    + lia.
    + unfold sumZ in IH. rewrite IH. lia.
Qed.

Lemma assign_keys (t : TaskManager.Tag) (v : Z) (acc : TagCounts) :
  NoDup (map fst acc) ->
  NoDup (map fst (assign t v acc)) /\
  (forall k, In k (map fst (assign t v acc)) <-> k = t \/ In k (map fst acc)).
Proof.
  induction acc as [| [k w] acc IH]; intros Hnd.
  - cbn. split; [repeat constructor; intros [] |].
    intros k. split; [intros [E | []]; now left | intros [E | []]; now left].
  - cbn [map fst] in Hnd. inversion Hnd as [| ? ? Hk Hacc]; subst.
    destruct (IH Hacc) as [IH1 IH2].
    cbn [assign]. destruct (tag_eqb k t) eqn:Ekt.
    + apply tag_eqb_eq in Ekt. subst k. cbn [map fst]. split; [exact Hnd |].
      intros k. cbn [In]. intuition congruence.
    + cbn [map fst]. split.
      * constructor; [| exact IH1].
        rewrite IH2. intros [E | Hin]; [| tauto].
        subst k. now rewrite tag_eqb_refl in Ekt.
      * intros k'. cbn [In]. rewrite IH2. intuition congruence.
Qed.

Lemma bump_value (acc : TagCounts) (task : TaskManager.Task) :
  bump acc task =
  assign (TaskManager.tag task)
    (match lookup (TaskManager.tag task) acc with
     | Some w => w
     | None => 0
     end + 1) acc.
Proof.
  unfold bump. destruct (lookup (TaskManager.tag task) acc) as [w |];
    [| reflexivity].
  destruct (Z.eqb_spec w 0); [now subst | reflexivity].
Qed.

(** What folding [bump] over a list of tasks does to an object. *)
Lemma fold_bump (l : list TaskManager.Task) :
  forall acc : TagCounts,
    NoDup (map fst acc) ->
    Forall (fun e => 1 <= snd e) acc ->
    let acc' := fold_left bump l acc in
    NoDup (map fst acc') /\
    Forall (fun e => 1 <= snd e) acc' /\
    sumZ (map snd acc') = sumZ (map snd acc) + Z.of_nat (List.length l) /\
    (forall tag,
       match lookup tag acc' with Some w => w | None => 0 end =
       match lookup tag acc with Some w => w | None => 0 end +
       Z.of_nat
         (List.length
            (List.filter (fun task => tag_eqb (TaskManager.tag task) tag) l))).
Proof.
  induction l as [| x l IH]; intros acc Hnd Hpos; cbv zeta.
  - cbn [fold_left List.length List.filter Z.of_nat].
    repeat split; try assumption; intros; lia.
  - cbn [fold_left].
    assert (Hpos_lookup : forall tag w, lookup tag acc = Some w -> 1 <= w).
    { clear -Hpos. induction acc as [| [k w'] acc IHa]; intros tag w H;
        [discriminate |].
      inversion Hpos as [| ? ? Hk Hacc]; subst. cbn [lookup] in H.
      destruct (tag_eqb k tag); [injection H as <-; exact Hk |].
      now apply (IHa Hacc tag). }
    destruct (assign_keys (TaskManager.tag x)
                (match lookup (TaskManager.tag x) acc with
                 | Some w => w | None => 0 end + 1) acc Hnd) as [K1 _].
    assert (Hpos' : Forall (fun e => 1 <= snd e) (bump acc x)).
    { rewrite bump_value.
      assert (Hv : 1 <= match lookup (TaskManager.tag x) acc with
                        | Some w => w | None => 0 end + 1).
      { destruct (lookup (TaskManager.tag x) acc) as [w |] eqn:E; [| lia].
        pose proof (Hpos_lookup _ _ E). lia. }
      revert Hv. generalize (match lookup (TaskManager.tag x) acc with
                             | Some w => w | None => 0 end + 1).
      clear -Hpos. intros v Hv.
      induction acc as [| [k w] acc IHa]; cbn [assign].
      - repeat constructor. exact Hv.
      - inversion Hpos as [| ? ? Hk Hacc]; subst.
        destruct (tag_eqb k (TaskManager.tag x)); constructor;
          try assumption; first [exact Hv | now apply IHa]. }
    rewrite <- bump_value in K1.
    destruct (IH (bump acc x) K1 Hpos') as [I1 [I2 [I3 I4]]].
    repeat split; try assumption.
    + rewrite I3, bump_value, assign_sum. cbn [List.length]. lia.
    + intros tag. rewrite I4, bump_value, lookup_assign.
      cbn [List.filter].
      destruct (tag_eqb (TaskManager.tag x) tag) eqn:E.
      * apply tag_eqb_eq in E. subst tag. cbn [List.length]. lia.
      * lia.
Qed.

Lemma lookup_In (tag : TaskManager.Tag) (w : Z) (acc : TagCounts) :
  lookup tag acc = Some w -> In (tag, w) acc.
Proof.
  induction acc as [| [k v] acc IH]; [discriminate |].
  cbn [lookup]. destruct (tag_eqb k tag) eqn:E.
  - apply tag_eqb_eq in E. subst k. intros H. injection H as <-. now left.
  - intros H. right. now apply IH.
Qed.

Lemma In_lookup (tag : TaskManager.Tag) (w : Z) (acc : TagCounts) :
  NoDup (map fst acc) -> In (tag, w) acc -> lookup tag acc = Some w.
Proof.
  induction acc as [| [k v] acc IH]; intros Hnd Hin; [destruct Hin |].
  cbn [map fst] in Hnd. inversion Hnd as [| ? ? Hk Hacc]; subst.
  cbn [lookup]. destruct Hin as [E | Hin].
  - injection E as -> ->. now rewrite tag_eqb_refl.
  - destruct (tag_eqb k tag) eqn:E; [| now apply IH].
    apply tag_eqb_eq in E. subst k. exfalso. apply Hk.
    apply in_map_iff. exists (tag, w). now split.
Qed.

Lemma filter_twice_length {A : Type} (p q : A -> bool) (l : list A) :
  List.length (List.filter p (List.filter q l)) =
  List.length (List.filter (fun x => q x && p x) l).
Proof.
  induction l as [| x l IH]; [reflexivity |].
  cbn [List.filter]. destruct (q x); cbn [List.filter andb]; [| exact IH].
  destruct (p x); cbn [List.length]; now rewrite IH.
Qed.

Lemma capitalized_inj (a b : TaskManager.Tag) :
  capitalize (tagString a) = capitalize (tagString b) -> a = b.
Proof. destruct a, b; cbn; intros H; try reflexivity; discriminate H. Qed.

(** X21: the pie-chart data has one entry per tag that some completed task
    carries and none for the others, under distinct names; each value is
    the number of completed tasks with that tag, at least 1; and the
    values add up to [tasksCompleted]. *)
Theorem getTaskTagData_spec (allTasks : list TaskManager.Task) :
  sumZ (map value (getTaskTagData allTasks)) =
    Z.of_nat (tasksCompleted allTasks) /\
  NoDup (map name (getTaskTagData allTasks)) /\
  (forall d : TagDatum,
     In d (getTaskTagData allTasks) ->
     1 <= value d /\
     exists tag : TaskManager.Tag,
       d = {| name := capitalize (tagString tag);
              value := completedWith tag allTasks;
              color := tagColors tag |}) /\
  (forall tag : TaskManager.Tag,
     (exists d, In d (getTaskTagData allTasks) /\
                name d = capitalize (tagString tag)) <->
     0 < completedWith tag allTasks).
Proof.
  unfold getTaskTagData, tagCounts, tasksCompleted.
  set (done := List.filter (fun task => TaskManager.completed task) allTasks).
  destruct (fold_bump done [] (NoDup_nil _) (Forall_nil _))
    as [K [P [S C]]].
  set (tc := fold_left bump done []) in *.
  assert (Cw : forall tag,
             match lookup tag tc with Some w => w | None => 0 end =
             completedWith tag allTasks).
  { intros tag. rewrite C. cbn [lookup]. unfold completedWith, done.
    now rewrite filter_twice_length. }
  split; [| split; [| split]].
  - rewrite map_map, (map_ext _ snd) by reflexivity.
    rewrite S. reflexivity.
  - rewrite map_map. cbn [name]. clear -K.
    induction tc as [| [k v] tc IH]; [constructor |].
    cbn [map fst] in *. inversion K as [| ? ? Hk Htc]; subst.
    constructor; [| now apply IH].
    intros Hin. apply Hk. apply in_map_iff in Hin.
    destruct Hin as [[k' v'] [E Hin]]. cbn [fst] in E.
    apply capitalized_inj in E. subst k'.
    apply in_map_iff. exists (k, v'). now split.
  - intros d Hd. apply in_map_iff in Hd. destruct Hd as [[k v] [E Hin]].
    subst d. cbn [fst snd value]. split.
    + rewrite Forall_forall in P. exact (P (k, v) Hin).
    + exists k. rewrite <- (Cw k), (In_lookup k v tc K Hin). reflexivity.
  - intros tag. rewrite <- (Cw tag). split.
    + intros [d [Hd En]]. apply in_map_iff in Hd.
      destruct Hd as [[k v] [E Hin]]. subst d. cbn [name fst] in En.
      apply capitalized_inj in En. subst k.
      rewrite (In_lookup tag v tc K Hin).
      rewrite Forall_forall in P. pose proof (P (tag, v) Hin) as Hv.
      cbn [snd] in Hv. lia.
    + intros Hpos. destruct (lookup tag tc) as [w |] eqn:E; [| lia].
      exists {| name := capitalize (tagString tag); value := w;
                color := tagColors tag |}.
      split; [| reflexivity].
      apply in_map_iff. exists (tag, w). split; [reflexivity |].
      now apply lookup_In.
Qed.

End AnalyticsFacts.

(** * Facts about the simulated player *)

Module MusicFacts.
Import MusicControls.

Lemma includes_In (ks : list string) (key : string) :
  includes ks key = true <-> In key ks.
Proof.
  unfold includes. rewrite existsb_exists. split.
  - intros [x [Hin E]]. apply String.eqb_eq in E. now subst.
  - intros Hin. exists key. split; [exact Hin | apply String.eqb_refl].
Qed.

Lemma property_some (key : string) (table : list (string * Playlist)) :
  In key (keys table) -> exists p, property key table = Some p.
Proof.
  induction table as [| [k v] table IH]; intros Hin; [destruct Hin |].
  cbn [property]. destruct (String.eqb_spec k key) as [E | E].
  - now exists v.
  - apply IH. destruct Hin as [H | H]; [cbn in H; congruence | exact H].
Qed.

Lemma autoSwitch_valid (st : State) :
  In (currentPlaylist (autoSwitch st)) (keys (playlists (sessionType (autoSwitch st)))).
Proof.
  unfold autoSwitch. destruct (sessionType st) eqn:Ety.
  - destruct (includes (keys (playlists focus)) (currentPlaylist st)) eqn:E;
      cbn [negb].
    + rewrite Ety. now apply includes_In.
    + cbn [setCurrentPlaylist currentPlaylist sessionType]. rewrite Ety.
      cbn. now left.
  - destruct (includes (keys (playlists break)) (currentPlaylist st)) eqn:E;
      cbn [negb].
    + rewrite Ety. now apply includes_In.
    + cbn [setCurrentPlaylist currentPlaylist sessionType]. rewrite Ety.
      cbn. now left.
Qed.

(** Once the effect has run, the selected key is one of the keys of the
    table of the current session type, so [getSelectedPlaylist] returns
    the playlist stored under that key; and a change of session type
    followed by the effect makes the key the default of the new type,
    because the two tables share no key. *)
Theorem playlist_valid (ty : SessionType) (st : State) :
  reachable ty st ->
  In (currentPlaylist st) (keys (playlists (sessionType st))) /\
  getSelectedPlaylist st =
    property (currentPlaylist st) (playlists (sessionType st)) /\
  getSelectedPlaylist st <> None /\
  (forall ty' : SessionType,
     ty' <> sessionType st ->
     currentPlaylist (step (Rerender ty') st) =
       match ty' with
       | focus => "lo-fi"
       | break => "upbeat"
       end%string).
Proof.
  intros Hr.
  assert (V : In (currentPlaylist st) (keys (playlists (sessionType st)))).
  { destruct Hr as [| e st' _ _]; [| apply autoSwitch_valid].
    destruct ty; cbn; now left. }
  destruct (property_some _ _ V) as [p Hp].
  assert (G : getSelectedPlaylist st =
              property (currentPlaylist st) (playlists (sessionType st))).
  { unfold getSelectedPlaylist. destruct (sessionType st); now rewrite Hp. }
  split; [exact V | split; [exact G | split]].
  - rewrite G, Hp. discriminate.
  - intros ty' Hne. unfold step, autoSwitch. cbn [sessionType currentPlaylist].
    destruct ty', (sessionType st); try congruence;
      cbv [keys playlists map fst In] in V.
    + destruct V as [<- | [<- | [<- | []]]]; reflexivity.
    + destruct V as [<- | [<- | [<- | [<- | []]]]]; reflexivity.
Qed.

Lemma playlist_valid_witness :
  currentPlaylist (step (Rerender break) (step (Select "ambient") (initial focus)))
  = "upbeat"%string.
Proof.
  apply (proj2 (proj2 (proj2
           (playlist_valid focus (step (Select "ambient") (initial focus))
              (reachable_step focus (Select "ambient") (initial focus)
                 (reachable_initial focus)
                 (or_intror (or_intror (or_introl eq_refl)))))))).
  discriminate.
Defined.

Lemma autoSwitch_track (st : State) :
  isPlaying (autoSwitch st) = isPlaying st /\
  duration (autoSwitch st) = duration st /\
  currentTime (autoSwitch st) = currentTime st /\
  volume (autoSwitch st) = volume st.
Proof.
  unfold autoSwitch.
  destruct (sessionType st);
    match goal with
    | |- context [if ?b then _ else _] => destruct b
    end; repeat split.
Qed.

(** X23: the simulated track never runs past its end and the volume stays
    on the slider: on every reachable player [0 <= currentTime <=
    duration] and [0 <= volume <= 100]; the duration is 0 (nothing
    started yet) or between 180 and 479 seconds; and while the player is
    playing there is a track, of at least 180 seconds. *)
Theorem track_invariant (ty : SessionType) (st : State) :
  reachable ty st ->
  0 <= currentTime st <= duration st /\
  (duration st = 0 \/ 180 <= duration st <= 479) /\
  (isPlaying st = true -> 180 <= duration st) /\
  0 <= volume st <= 100.
Proof.
  intros Hr. induction Hr as [| e st Hr [IHt [IHd [IHp IHv]]] He].
  - destruct ty; cbn; repeat split; try lia; discriminate.
  - unfold step.
    destruct (autoSwitch_track
                match e with
                | Rerender ty0 =>
                    {| sessionType := ty0; isPlaying := isPlaying st;
                       currentPlaylist := currentPlaylist st;
                       volume := volume st;
                       currentTrack := currentTrack st;
                       duration := duration st;
                       currentTime := currentTime st |}
                | Select key => setCurrentPlaylist key st
                | Volume v =>
                    {| sessionType := sessionType st;
                       isPlaying := isPlaying st;
                       currentPlaylist := currentPlaylist st; volume := v;
                       currentTrack := currentTrack st;
                       duration := duration st;
                       currentTime := currentTime st |}
                | TogglePlayback d => togglePlayback d st
                | Skip n d => skipTrack n d st
                | Progress n d => progress n d st
                end) as [Ep [Ed [Et Ev]]].
    rewrite Ep, Ed, Et, Ev. clear Ep Ed Et Ev.
    destruct e as [ty0 | key | v | d | n d | n d]; cbn [possible] in He.
    + cbn. repeat split; tauto.
    + cbn. repeat split; tauto.
    + cbn. repeat split; try tauto; lia.
    + unfold togglePlayback. cbn [isPlaying duration currentTime volume].
      destruct (isPlaying st) eqn:Ep; cbn [negb andb].
      * repeat split; intros; try tauto; try lia; discriminate.
      * destruct (Z.eqb_spec (duration st) 0) as [E0 | E0];
          repeat split; intros; try tauto; lia.
    + unfold skipTrack, newTrack. cbn [isPlaying duration currentTime volume].
      repeat split; intros; try tauto; lia.
    + unfold progress. destruct (isPlaying st) eqn:Ep;
        [| repeat split; intros; try tauto; try lia; congruence].
      destruct (Z.leb_spec (duration st) (currentTime st)).
      * unfold newTrack. cbn [isPlaying duration currentTime volume].
        repeat split; intros; try tauto; lia.
      * cbn [isPlaying duration currentTime volume].
        repeat split; intros; try tauto; lia.
Qed.

Lemma track_invariant_witness :
  0 <= currentTime (step (TogglePlayback 41) (initial focus))
    <= duration (step (TogglePlayback 41) (initial focus)).
Proof.
  apply (track_invariant focus (step (TogglePlayback 41) (initial focus))).
  apply reachable_step; [apply reachable_initial | cbn; lia].
Defined.

Lemma step_handle (e : Event) (st : State) :
  step e st = autoSwitch (handle e st).
Proof. destruct e; reflexivity. Qed.

Lemma reachable_key (ty : SessionType) (st : State) :
  reachable ty st ->
  In (currentPlaylist st) (keys (playlists (sessionType st))).
Proof.
  intros Hr. destruct Hr as [| e st' _ _]; [| apply autoSwitch_valid].
  destruct ty; cbn; now left.
Qed.

Lemma rendered_key (ty : SessionType) (st : State) :
  rendered ty st ->
  In (currentPlaylist st)
    (keys (playlists focus) ++ keys (playlists break)).
Proof.
  assert (A : forall ty0 key,
             In key (keys (playlists ty0)) ->
             In key (keys (playlists focus) ++ keys (playlists break))).
  { intros ty0 key H. apply in_or_app. destruct ty0; [now left | now right]. }
  intros [st' Hr | e st' Hr He].
  - apply (A (sessionType st')). now apply (reachable_key ty).
  - pose proof (reachable_key ty st' Hr) as V.
    destruct e as [ty0 | key | v | d | n d | n d]; cbn [handle].
    + apply (A (sessionType st')). exact V.
    + apply (A (sessionType st')). exact He.
    + apply (A (sessionType st')). exact V.
    + apply (A (sessionType st')). exact V.
    + apply (A (sessionType st')). exact V.
    + unfold progress. destruct (isPlaying st');
        [destruct (duration st' <=? currentTime st') |];
        apply (A (sessionType st')); exact V.
Qed.

(** The seven keys, under either session type. *)
Lemma selected_of_known_key (st : State) :
  In (currentPlaylist st)
    (keys (playlists focus) ++ keys (playlists break)) ->
  exists p : Playlist,
    getSelectedPlaylist st = Some p /\
    In p (map snd (playlists (sessionType st))) /\
    getSelectedPlaylist (autoSwitch st) = Some p /\
    (getSelectedPlaylist st =
       property (currentPlaylist st) (playlists (sessionType st)) \/
     (property (currentPlaylist st) (playlists (sessionType st)) = None /\
      getSelectedPlaylist st =
        property (defaultKey (sessionType st))
          (playlists (sessionType st)) /\
      currentPlaylist (autoSwitch st) = defaultKey (sessionType st))).
Proof.
  destruct st as [ty pl key vol tr du ti].
  cbn [currentPlaylist sessionType].
  intros H. cbv [keys playlists map fst app In] in H.
  destruct H as [H | [H | [H | [H | [H | [H | [H | []]]]]]]];
    subst key; destruct ty;
    (eexists; split; [reflexivity |]; split; [cbn; tauto |];
     split; [reflexivity |];
     first [left; reflexivity | right; repeat split; reflexivity]).
Qed.

(** X22: in every render React commits, [getSelectedPlaylist] returns a
    playlist of the table of the current session type, and the effect of
    lines 74-80 with the render it causes never changes which one that
    is.  Once the effect has run the selected key is a key of that table
    and the playlist is the one stored under it.  In the render right
    after the parent has changed the session type the key is still the
    old one, which the new table lacks: there the [||] fallback applies,
    it yields the playlist of the default key, and the default key is what
    the effect then selects. *)
Theorem selected_playlist (ty : SessionType) :
  (forall st : State,
     rendered ty st ->
     exists p : Playlist,
       getSelectedPlaylist st = Some p /\
       In p (map snd (playlists (sessionType st))) /\
       getSelectedPlaylist (autoSwitch st) = Some p) /\
  (forall st : State,
     reachable ty st ->
     In (currentPlaylist st) (keys (playlists (sessionType st))) /\
     getSelectedPlaylist st =
       property (currentPlaylist st) (playlists (sessionType st))) /\
  (forall (st : State) (ty' : SessionType),
     reachable ty st ->
     ty' <> sessionType st ->
     currentPlaylist (handle (Rerender ty') st) = currentPlaylist st /\
     property (currentPlaylist st) (playlists ty') = None /\
     getSelectedPlaylist (handle (Rerender ty') st) =
       property (defaultKey ty') (playlists ty') /\
     currentPlaylist (step (Rerender ty') st) = defaultKey ty').
Proof.
  split; [| split].
  - intros st Hr.
    destruct (selected_of_known_key st (rendered_key ty st Hr))
      as [p [H1 [H2 [H3 _]]]].
    exists p. repeat split; assumption.
  - intros st Hr. pose proof (reachable_key ty st Hr) as V.
    split; [exact V |].
    destruct (property_some _ _ V) as [p Hp].
    unfold getSelectedPlaylist. destruct (sessionType st); now rewrite Hp.
  - intros st ty' Hr Hne. pose proof (reachable_key ty st Hr) as V.
    rewrite step_handle. cbn [handle currentPlaylist].
    assert (N : property (currentPlaylist st) (playlists ty') = None).
    { destruct ty', (sessionType st); try congruence;
        cbv [keys playlists map fst In] in V.
      - destruct V as [<- | [<- | [<- | []]]]; reflexivity.
      - destruct V as [<- | [<- | [<- | [<- | []]]]]; reflexivity. }
    split; [reflexivity | split; [exact N |]].
    unfold getSelectedPlaylist, autoSwitch. cbn [sessionType currentPlaylist].
    destruct ty'; rewrite N.
    + split; [reflexivity |].
      destruct (sessionType st); [congruence |].
      cbv [keys playlists map fst In] in V.
      destruct V as [<- | [<- | [<- | []]]]; reflexivity.
    + split; [reflexivity |].
      destruct (sessionType st); [| congruence].
      cbv [keys playlists map fst In] in V.
      destruct V as [<- | [<- | [<- | [<- | []]]]]; reflexivity.
Qed.

Lemma selected_playlist_witness :
  let st := step (Select "ambient") (initial focus) in
  currentPlaylist (handle (Rerender break) st) = "ambient"%string /\
  getSelectedPlaylist (handle (Rerender break) st) =
    property "upbeat" (playlists break) /\
  currentPlaylist (step (Rerender break) st) = "upbeat"%string.
Proof.
  intros st.
  assert (R : reachable focus st).
  { apply (reachable_step focus (Select "ambient") (initial focus)
             (reachable_initial focus)).
    right. right. left. reflexivity. }
  destruct (proj2 (proj2 (selected_playlist focus)) st break R)
    as [H1 [_ [H3 H4]]].
  - discriminate.
  - split; [exact H1 | split; [exact H3 | exact H4]].
Defined.

End MusicFacts.

(** * Stopping the countdown *)

(** X24: Pause, Reset and Switch really stop the countdown: the re-render
    they cause clears the interval and installs no new one, so however
    many seconds pass afterwards nothing about the timer changes until
    the next command. *)
Theorem stopped_timer_ignores_ticks (r : Timer) (n : nat) :
  mounted r = true ->
  ticks n (step Pause r) = step Pause r /\
  ticks n (step Reset r) = step Reset r /\
  ticks n (step Switch r) = step Switch r.
Proof.
  intros Hm. unfold step, command. rewrite Hm.
  repeat split; apply ticks_idle; cbn [update interval];
    unfold effectGuard.
  - reflexivity.
  - reflexivity.
  - unfold switchSession, switchSession_in. reflexivity.
Qed.

Lemma stopped_timer_ignores_ticks_witness :
  ticks 60 (step Pause (ticks 10 (started 1))) =
  step Pause (ticks 10 (started 1)).
Proof.
  apply (proj1 (stopped_timer_ignores_ticks (ticks 10 (started 1)) 60
                  eq_refl)).
Defined.

(** * Stale handlers and the reset and counter rules *)

(** C5 (as the code behaves): Ctrl+R runs the [resetTimer] of the render
    in which the keydown listener was registered.  The Switch button on an
    idle timer changes the session type but not the listener, so a Ctrl+R
    after it restores the length of the old type: a short break and a long
    break are both reset to 1500 seconds where 300 is due, and a focus
    period entered from a break whose listener is still registered is
    reset to 300 seconds where 1500 is due. *)
Theorem stale_ctrlR_reset :
  (let k := kstep (Ui Switch) (mountKeyed true) in
   state (timer k) =
     {| timeLeft := 300; isRunning := false; sessionType := break;
        sessionCount := 1; startTime := None |} /\
   state (timer (kstep (Press CtrlR) k)) =
     {| timeLeft := 1500; isRunning := false; sessionType := break;
        sessionCount := 1; startTime := None |}) /\
  (let k := Nat.iter 7 (kstep (Ui Switch)) (mountKeyed true) in
   state (timer k) =
     {| timeLeft := 900; isRunning := false; sessionType := break;
        sessionCount := 4; startTime := None |} /\
   state (timer (kstep (Press CtrlR) k)) =
     {| timeLeft := 1500; isRunning := false; sessionType := break;
        sessionCount := 4; startTime := None |}) /\
  (let k := kstep (Ui Switch)
              (kstep (Ui Reset)
                 (kstep (Ui (Start 5))
                    (kstep (Ui Switch) (mountKeyed true)))) in
   sessionType (listener k) = break /\
   state (timer k) =
     {| timeLeft := 1500; isRunning := false; sessionType := focus;
        sessionCount := 1; startTime := None |} /\
   state (timer (kstep (Press CtrlR) k)) =
     {| timeLeft := 300; isRunning := false; sessionType := focus;
        sessionCount := 1; startTime := None |}).
Proof. vm_compute. repeat split. Qed.

(** C8 (as the code behaves): a stale [switchSession] counts without a
    Focus-to-Break transition.  A second Ctrl+B on the idle timer, and the
    deferred switch that fires after a press of the Switch button inside
    its one-second delay, both find the timer in a break, leave it in a
    break and raise [sessionCount] from 1 to 2, although only one focus
    period was ever left. *)
Theorem stale_switch_counts_again :
  (let k := kstep (Press CtrlB) (mountKeyed true) in
   sessionType (state (timer k)) = break /\
   sessionCount (state (timer k)) = 1 /\
   sessionType (state (timer (kstep (Press CtrlB) k))) = break /\
   sessionCount (state (timer (kstep (Press CtrlB) k))) = 2) /\
  (let r := step Switch (ticks 1500 (started 0)) in
   sessionType (state r) = break /\
   sessionCount (state r) = 1 /\
   List.length (completed r) = 1%nat /\
   sessionType (state (step Timeout r)) = break /\
   sessionCount (state (step Timeout r)) = 2).
Proof. vm_compute. repeat split. Qed.

(** * The assigned length after a switch *)

(** X2: when [switchSession] runs as bound by the current render, the
    length that the tick and the progress ring assign to the new period
    equals the [timeLeft] just set: so it is after the Switch button on
    any mounted timer, and after the deferred switch that ends an
    undisturbed period.  A stale deferred switch breaks the agreement: on
    the timer reached by four presses of Switch, a completed focus period
    and two more presses inside the delay, it leaves a break of 300
    seconds to which the tick assigns 900. *)
Theorem nominalDuration_switchSession :
  (forall r : Timer,
     mounted r = true ->
     nominalDuration (state (step Switch r)) =
       timeLeft (state (step Switch r))) /\
  (forall (r : Timer) (t : Date),
     mounted r = true ->
     timeouts r = [] ->
     0 < timeLeft (state r) ->
     nominalDuration (state (runPeriod t r)) =
       timeLeft (state (runPeriod t r))) /\
  (let r := step Timeout
              (run [Switch; Switch]
                 (ticks 1500
                    (run [Switch; Switch; Switch; Switch; Start 0]
                       (mount true)))) in
   timeLeft (state r) = 300 /\ nominalDuration (state r) = 900).
Proof.
  split; [| split].
  - intros r Hm. unfold step, command. rewrite Hm. cbn [update state].
    apply switchSession_nominal.
  - intros r t Hm Hto Hpos. rewrite (runPeriod_eq r t Hm Hto Hpos).
    cbn [state]. apply switchSession_nominal.
  - vm_compute. split; reflexivity.
Qed.

Lemma nominalDuration_switchSession_witness :
  nominalDuration (state (step Switch (mount true))) =
    timeLeft (state (step Switch (mount true))) /\
  nominalDuration (state (runPeriod 3 (mount true))) =
    timeLeft (state (runPeriod 3 (mount true))).
Proof.
  split.
  - apply (proj1 nominalDuration_switchSession (mount true)). reflexivity.
  - apply (proj1 (proj2 nominalDuration_switchSession) (mount true) 3).
    + reflexivity.
    + reflexivity.
    + vm_compute. reflexivity.
Defined.
